(** * dregsy: mapping rules and ECR listing, embedded and verified

    Shallow embedding of
      - internal/pkg/registry/ecr.go  (IsECR, Retrieve)
      - internal/pkg/sync/mapping.go  (validate, filterRepos, mapPath, ...)

    Go strings are byte sequences and are embedded as [string]; Go's [int]
    and [time.Duration] are embedded as [Z] (no arithmetic that could wrap
    is performed on them by the embedded code, only comparisons).  A Go
    run-time panic (index out of range, nil dereference) is an explicit
    outcome of the embedded functions. *)

From Stdlib Require Import String Ascii List ZArith Lia Bool DecimalString.
Import ListNotations.

Local Open Scope string_scope.
Local Open Scope Z_scope.
Local Open Scope list_scope.

(** ** Run-time outcomes *)

(** What evaluating a Go expression gives: a value, or a run-time panic. *)
Inductive result (A : Type) : Type :=
| Ok (a : A)
| Panic (why : string).
Arguments Ok {A} a.
Arguments Panic {A} why.

Definition rbind {A B : Type} (r : result A) (k : A -> result B) : result B :=
  match r with
  | Ok a => k a
  | Panic why => Panic why
  end.

Declare Scope go_scope.
Delimit Scope go_scope with go.
Notation "x <- r ;; k" := (rbind r (fun x => k))
  (at level 61, r at next level, right associativity) : go_scope.
(** Go's short-circuit conjunction: the right operand is only evaluated
    when the left one is true. *)
Notation "a &&& b" := (rbind a (fun x : bool => if x then b else Ok false))
  (at level 40, left associativity) : go_scope.
(** Go's short-circuit disjunction. *)
Notation "a ||| b" := (rbind a (fun x : bool => if x then Ok true else b))
  (at level 50, left associativity) : go_scope.

(** Go errors are embedded by their message ([err.Error()]); [%v] and [%s]
    in [fmt.Errorf] splice that message in. *)
Definition error : Type := string.

(** ** The parts of Go's [strings] package the code uses *)
Module strings.

(** [strings.HasPrefix(s, prefix)]. *)
Definition HasPrefix (s pre : string) : bool := String.prefix pre s.

(** First occurrence of the one-byte separator: the text before it and the
    text after it. *)
Fixpoint cut (sep : ascii) (s : string) : option (string * string) :=
  match s with
  | EmptyString => None
  | String c s' =>
      if Ascii.eqb c sep then Some (EmptyString, s')
      else match cut sep s' with
           | Some (a, b) => Some (String c a, b)
           | None => None
           end
  end.

(** [strings.Split(s, sep)] for a one-byte [sep] (both call sites pass a
    one-byte separator): all the pieces between separators; one more piece
    than there are separators, so never empty. *)
Fixpoint Split (s : string) (sep : ascii) : list string :=
  match s with
  | EmptyString => [EmptyString]
  | String c s' =>
      if Ascii.eqb c sep then EmptyString :: Split s' sep
      else match Split s' sep with
           | piece :: rest => String c piece :: rest
           | [] => [String c EmptyString]
           end
  end.

Fixpoint splitAtMost (n : nat) (s : string) (sep : ascii) : list string :=
  match n with
  | O => []
  | S k =>
      match k with
      | O => [s]
      | S _ =>
          match cut sep s with
          | None => [s]
          | Some (a, b) => a :: splitAtMost k b sep
          end
      end
  end.

(** [strings.SplitN(s, sep, n)] for a one-byte [sep]: [n < 0] splits
    everywhere, [n = 0] gives nil, [n > 0] gives at most [n] pieces, the last
    one holding the unsplit remainder. *)
Definition SplitN (s : string) (sep : ascii) (n : Z) : list string :=
  if n <? 0 then Split s sep else splitAtMost (Z.to_nat n) s sep.

End strings.

(** [len(xs)] *)
Definition len {A : Type} (xs : list A) : Z := Z.of_nat (List.length xs).

(** [xs[i]]: panics when [i] is out of range. *)
Definition index {A : Type} (xs : list A) (i : nat) : result A :=
  match nth_error xs i with
  | Some x => Ok x
  | None => Panic "index out of range"
  end.

(** [s[n:]] on a string: panics when [n > len(s)]. *)
Fixpoint sliceFrom (s : string) (n : nat) {struct n} : result string :=
  match n with
  | O => Ok s
  | S k =>
      match s with
      | EmptyString => Panic "slice bounds out of range"
      | String _ s' => sliceFrom s' k
      end
  end.

(** ** internal/pkg/registry/ecr.go *)
Module registry.

Local Open Scope go_scope.

(** [IsECR(registry) (ecr bool, region, account string)] *)
Definition IsECR (registry : string) : result (bool * string * string) :=
  let url := strings.Split registry "." in
  ecr <- ((Ok ((len url =? 6) || (len url =? 7))%bool)
          &&& (u1 <- index url 1 ;; Ok (u1 =? "dkr")%string)
          &&& (u2 <- index url 2 ;; Ok (u2 =? "ecr")%string)
          &&& (u4 <- index url 4 ;; Ok (u4 =? "amazonaws")%string)
          &&& (u5 <- index url 5 ;; Ok (u5 =? "com")%string)
          &&& (Ok (len url =? 6) ||| (u6 <- index url 6 ;; Ok (u6 =? "cn")%string))) ;;
  if ecr : bool then
    region <- index url 3 ;;
    account <- index url 0 ;;
    Ok (ecr, region, account)
  else
    Ok (ecr, EmptyString, EmptyString).

(** *** The managed-registry list source *)

(** [type ecr struct] *)
Record ecr : Type := newECR {
  registry : string;
  region : string;
  account : string
}.

(** [awsecr.Repository]; [RepositoryName] is a [*string]. *)
Record Repository : Type := {
  RepositoryName : option string
}.

(** [awsecr.DescribeRepositoriesOutput], one page of the listing. *)
Record DescribeRepositoriesOutput : Type := {
  Repositories : list Repository
}.

(** [awsecr.DescribeRepositoriesInput] *)
Record DescribeRepositoriesInput : Type := {
  RegistryId : string;
  MaxResults : Z
}.

(** [aws.StringValue]: the pointed-to string, or the empty string for nil. *)
Definition StringValue (p : option string) : string :=
  match p with
  | Some s => s
  | None => EmptyString
  end.

(** What the service answers to the successive page requests of one
    listing: a request fails, or delivers a page that is the last one (no
    continuation token), or delivers a page and a token, the rest being the
    answers to the requests made with that token. *)
Inductive backend : Type :=
| Fail (err : error)
| LastPage (page : DescribeRepositoriesOutput)
| NextPage (page : DescribeRepositoriesOutput) (rest : backend).

(** The AWS SDK, as far as [Retrieve] depends on it: session bootstrap
    ([session.NewSession]) and the behaviour of the ECR endpoint that
    [awsecr.New] connects to for a region. *)
Class AWS : Type := {
  Session : Type;
  NewSession : Session + error;
  describeRepositories : Session -> string -> DescribeRepositoriesInput -> backend
}.

(** A Go slice of strings: nil, or an array segment. *)
Definition slice : Type := option (list string).

Definition slen (s : slice) : Z :=
  match s with
  | None => 0
  | Some xs => len xs
  end.

(** [append(s, x)] *)
Definition append (s : slice) (x : string) : slice :=
  match s with
  | None => Some [x]
  | Some xs => Some (xs ++ [x])
  end.

(** The SDK's pagination driver ([DescribeRepositoriesPages]), a blocking
    sequence of request and response round trips driven by a continuation
    callback: it requests the pages one after the other, hands each to [fn]
    with the last-page flag, lets [fn] run to completion before the next
    request, stops when [fn] answers false or no token is left, and returns
    the error of a failed request.  [fn] is a closure over the caller's
    variables, here the explicit state [st]. *)
Fixpoint DescribeRepositoriesPages {St : Type} (b : backend)
    (fn : DescribeRepositoriesOutput -> bool -> St -> St * bool) (st : St)
  : St * option error :=
  match b with
  | Fail err => (st, Some err)
  | LastPage page => (fst (fn page true st), None)
  | NextPage page rest =>
      let (st', more) := fn page false st in
      if more then DescribeRepositoriesPages rest fn st' else (st', None)
  end.

Section ListSource.
Context {aws : AWS}.

(** [awsecr.ECR]: a service client bound to a session and a region. *)
Record ECR : Type := New {
  sess : Session;
  cfgRegion : string
}.

(** [func (e *ecr) getService()], returning the service client or an error. *)
Definition getService (e : ecr) : ECR + error :=
  match NewSession with
  | inr err => inr err
  | inl sess => inl (New sess (region e))
  end.

(** The callback passed to the pagination driver; [ret] is the captured
    accumulator. *)
Definition collect (maxItems : Z) (page : DescribeRepositoriesOutput)
    (lastPage : bool) (ret : slice) : slice * bool :=
  let ret' :=
    fold_left (fun acc r => append acc (StringValue (RepositoryName r)))
              (Repositories page) ret in
  (ret', (maxItems <=? 0) || (slen ret' <? maxItems))%bool.

(** [func (e *ecr) Retrieve(maxItems int) ([]string, error)]; the debug log
    line has no effect on the result. *)
Definition Retrieve (e : ecr) (maxItems : Z) : slice * option error :=
  match getService e with
  | inr err => (None, Some ("error getting ECR service: " ++ err)%string)
  | inl svc =>
      let input := {| RegistryId := account e; MaxResults := 100 |} in
      let ret : slice := None in
      match DescribeRepositoriesPages
              (describeRepositories (sess svc) (cfgRegion svc) input)
              (collect maxItems) ret with
      | (_, Some err) =>
          (None, Some ("error listing ECR repositories: " ++ err)%string)
      | (ret, None) => (ret, None)
      end
  end.

End ListSource.

(** *** The other methods of the list source *)

(** The SDK's [DescribeRegistry] call, as far as [Ping] depends on it: the
    error it returns next to its output, for a client bound to a session
    and a region. *)
Class Probe {aws : AWS} : Type := {
  describeRegistry : Session -> string -> option error
}.

Section Probing.
Context {aws : AWS} {probe : Probe}.


End Probing.

(** [func (e *ecr) ListTags(repo string) ([]Tag, error)]; [Tag] is declared
    outside the two files and is a type parameter here. *)
Definition ListTags {Tag : Type} (e : ecr) (repo : string)
  : option (list Tag) * option error :=
  (None, None).

End registry.

(** ** The part of Go's [strconv] package the code uses *)
Module strconv.

(** [strconv.ParseBool]: the accepted spellings, and [false] with a syntax
    error for anything else (the caller discards the error, whose message is
    kept short here). *)
Definition ParseBool (str : string) : bool * option error :=
  if ((str =? "1") || (str =? "t") || (str =? "T") ||
      (str =? "true") || (str =? "TRUE") || (str =? "True"))%string%bool
  then (true, None)
  else if ((str =? "0") || (str =? "f") || (str =? "F") ||
           (str =? "false") || (str =? "FALSE") || (str =? "False"))%string%bool
  then (false, None)
  else (false, Some "strconv.ParseBool: invalid syntax").

End strconv.

(** ** internal/pkg/sync/mapping.go *)
Module sync.

(** Collaborators outside the two files: the regular-expression engine
    ([regexp]) behind [util.CompileRegex], the tag selector ([tags.NewTagSet])
    and [time.ParseDuration].  Each fallible one gives a value or an error;
    on an error the Go function returns the zero value (nil, 0) next to it. *)
Class Collaborators : Type := {
  Regexp : Type;
  CompileRegex : string -> bool -> Regexp + error;
  MatchString : Regexp -> string -> bool;
  ReplaceAllString : Regexp -> string -> string -> string;
  TagSet : Type;
  NewTagSet : list string -> TagSet + error;
  ParseDuration : string -> Z + error
}.

Definition RegexpPrefix : string := "regex:".

(** [func isRegexp(expr string) bool] *)
Definition isRegexp (expr : string) : bool :=
  strings.HasPrefix expr RegexpPrefix.

(** [func normalizePath(p string) string] *)
Definition normalizePath (p : string) : string :=
  if strings.HasPrefix p "/" then p else ("/" ++ p)%string.

(** *** Statements of a method that mutates its receiver

    A statement runs on the receiver's current fields and leaves the
    updated fields together with how control continues. *)
Inductive flow (A : Type) : Type :=
| Next (a : A)
| Return (err : option error)
| Crash (why : string).
Arguments Next {A} a.
Arguments Return {A} err.
Arguments Crash {A} why.

(** How a call ends. *)
Inductive outcome : Type :=
| Returned (err : option error)
| Panicked (why : string).

Section Mapping.
Context {ext : Collaborators}.

(** [type Mapping struct]; the pointer fields are [option]s, nil being
    [None]. *)
Record Mapping : Type := {
  From : string;
  To : string;
  Tags : list string;
  Platform : string;
  OnlyActive : string;
  Since : string;
  fromFilter : option Regexp;
  toFilter : option Regexp;
  onlyActiveFlag : bool;
  sinceDuration : Z;
  toReplace : string;
  tagSet : option TagSet
}.

Definition set_From (v : string) (m : Mapping) : Mapping :=
  {| From := v; To := To m; Tags := Tags m; Platform := Platform m;
     OnlyActive := OnlyActive m; Since := Since m;
     fromFilter := fromFilter m; toFilter := toFilter m;
     onlyActiveFlag := onlyActiveFlag m; sinceDuration := sinceDuration m;
     toReplace := toReplace m; tagSet := tagSet m |}.

Definition set_To (v : string) (m : Mapping) : Mapping :=
  {| From := From m; To := v; Tags := Tags m; Platform := Platform m;
     OnlyActive := OnlyActive m; Since := Since m;
     fromFilter := fromFilter m; toFilter := toFilter m;
     onlyActiveFlag := onlyActiveFlag m; sinceDuration := sinceDuration m;
     toReplace := toReplace m; tagSet := tagSet m |}.

Definition set_fromFilter (v : option Regexp) (m : Mapping) : Mapping :=
  {| From := From m; To := To m; Tags := Tags m; Platform := Platform m;
     OnlyActive := OnlyActive m; Since := Since m;
     fromFilter := v; toFilter := toFilter m;
     onlyActiveFlag := onlyActiveFlag m; sinceDuration := sinceDuration m;
     toReplace := toReplace m; tagSet := tagSet m |}.

Definition set_toFilter (v : option Regexp) (m : Mapping) : Mapping :=
  {| From := From m; To := To m; Tags := Tags m; Platform := Platform m;
     OnlyActive := OnlyActive m; Since := Since m;
     fromFilter := fromFilter m; toFilter := v;
     onlyActiveFlag := onlyActiveFlag m; sinceDuration := sinceDuration m;
     toReplace := toReplace m; tagSet := tagSet m |}.

Definition set_onlyActiveFlag (v : bool) (m : Mapping) : Mapping :=
  {| From := From m; To := To m; Tags := Tags m; Platform := Platform m;
     OnlyActive := OnlyActive m; Since := Since m;
     fromFilter := fromFilter m; toFilter := toFilter m;
     onlyActiveFlag := v; sinceDuration := sinceDuration m;
     toReplace := toReplace m; tagSet := tagSet m |}.

Definition set_sinceDuration (v : Z) (m : Mapping) : Mapping :=
  {| From := From m; To := To m; Tags := Tags m; Platform := Platform m;
     OnlyActive := OnlyActive m; Since := Since m;
     fromFilter := fromFilter m; toFilter := toFilter m;
     onlyActiveFlag := onlyActiveFlag m; sinceDuration := v;
     toReplace := toReplace m; tagSet := tagSet m |}.

Definition set_toReplace (v : string) (m : Mapping) : Mapping :=
  {| From := From m; To := To m; Tags := Tags m; Platform := Platform m;
     OnlyActive := OnlyActive m; Since := Since m;
     fromFilter := fromFilter m; toFilter := toFilter m;
     onlyActiveFlag := onlyActiveFlag m; sinceDuration := sinceDuration m;
     toReplace := v; tagSet := tagSet m |}.

Definition set_tagSet (v : option TagSet) (m : Mapping) : Mapping :=
  {| From := From m; To := To m; Tags := Tags m; Platform := Platform m;
     OnlyActive := OnlyActive m; Since := Since m;
     fromFilter := fromFilter m; toFilter := toFilter m;
     onlyActiveFlag := onlyActiveFlag m; sinceDuration := sinceDuration m;
     toReplace := toReplace m; tagSet := v |}.

(** [func (m *Mapping) isRegexpFrom() bool] *)
Definition isRegexpFrom (m : Mapping) : bool := isRegexp (From m).

(** [func (m *Mapping) isRegexpTo() bool] *)
Definition isRegexpTo (m : Mapping) : bool := isRegexp (To m).

(** A statement: a function of the receiver's fields. *)
Definition stmt (A : Type) : Type := Mapping -> Mapping * flow A.

Definition skip : stmt unit := fun m => (m, Next tt).

Definition seq {A B : Type} (s : stmt A) (k : A -> stmt B) : stmt B :=
  fun m =>
    match s m with
    | (m', Next a) => k a m'
    | (m', Return err) => (m', Return err)
    | (m', Crash why) => (m', Crash why)
    end.

(** [return err] *)
Definition return_ {A : Type} (err : option error) : stmt A :=
  fun m => (m, Return err).

(** Reading the receiver. *)
Definition read {A : Type} (f : Mapping -> A) : stmt A :=
  fun m => (m, Next (f m)).

(** Assigning to a field of the receiver. *)
Definition assign (upd : Mapping -> Mapping) : stmt unit :=
  fun m => (upd m, Next tt).

(** An expression that may panic. *)
Definition eval {A : Type} (r : result A) : stmt A :=
  fun m =>
    match r with
    | Ok a => (m, Next a)
    | Panic why => (m, Crash why)
    end.

Notation "x <-- s ;; k" := (seq s (fun x => k))
  (at level 61, s at next level, right associativity).
Notation "s ;;; k" := (seq s (fun _ => k))
  (at level 61, right associativity).

(** The body of [validate] for a non-nil receiver. *)
Definition validateBody : stmt Empty_set :=
  from <-- read From ;;
  (if (from =? EmptyString)%string
   then return_ (Some "mapping without 'From' path")
   else skip) ;;;
  isFrom <-- read isRegexpFrom ;;
  (if isFrom : bool then
     regex <-- eval (sliceFrom from (String.length RegexpPrefix)) ;;
     match CompileRegex regex true with
     | inr err =>
         assign (set_fromFilter None) ;;;
         return_ (Some ("'from' uses invalid regular expression '"
                        ++ regex ++ "': " ++ err)%string)
     | inl re => assign (set_fromFilter (Some re))
     end
   else
     assign (set_From (normalizePath from))) ;;;
  isTo <-- read isRegexpTo ;;
  to <-- read To ;;
  (if isTo : bool then
     rest <-- eval (sliceFrom to (String.length RegexpPrefix)) ;;
     let parts := strings.SplitN rest "," 2 in
     regex <-- eval (index parts 0) ;;
     (if len parts <? 2
      then return_ (Some "replacement expression missing in 'to'")
      else skip) ;;;
     replace <-- eval (index parts 1) ;;
     assign (set_toReplace replace) ;;;
     match CompileRegex regex false with
     | inr err =>
         assign (set_toFilter None) ;;;
         return_ (Some ("'to' uses invalid regular expression '"
                        ++ regex ++ "': " ++ err)%string)
     | inl re => assign (set_toFilter (Some re))
     end
   else if negb (to =? EmptyString)%string then
     assign (set_To (normalizePath to))
   else skip) ;;;
  tagSpecs <-- read Tags ;;
  match NewTagSet tagSpecs with
  | inr err => return_ (Some ("'tags' uses invalid format: " ++ err)%string)
  | inl tags => assign (set_tagSet (Some tags))
  end ;;;
  assign (set_onlyActiveFlag false) ;;;
  onlyActive <-- read OnlyActive ;;
  (if negb (onlyActive =? EmptyString)%string
   then assign (set_onlyActiveFlag (fst (strconv.ParseBool onlyActive)))
   else skip) ;;;
  since <-- read Since ;;
  (if negb (since =? EmptyString)%string then
     match ParseDuration since with
     | inr err => assign (set_sinceDuration 0) ;;; return_ (Some err)
     | inl d => assign (set_sinceDuration d)
     end
   else skip) ;;;
  return_ None.

Definition finish (f : flow Empty_set) : outcome :=
  match f with
  | Next a => match a with end
  | Return err => Returned err
  | Crash why => Panicked why
  end.

(** [func (m *Mapping) validate() error]: the receiver may be nil; the
    result is the receiver's fields after the call and the call's outcome. *)
Definition validate (m : option Mapping) : option Mapping * outcome :=
  match m with
  | None => (None, Returned (Some "mapping is nil"))
  | Some m0 =>
      let (m', f) := validateBody m0 in (Some m', finish f)
  end.

(** Dereferencing a compiled pattern. *)
Definition deref (p : option Regexp) : result Regexp :=
  match p with
  | Some re => Ok re
  | None => Panic "invalid memory address or nil pointer dereference"
  end.

(** [func (m *Mapping) filterRepos(repos []string) []string], on a non-nil
    receiver.  The code only ranges over and appends to slices here, so
    they are lists. *)
Definition filterRepos (m : Mapping) (repos : list string)
  : result (list string) :=
  if isRegexpFrom m then
    fold_left
      (fun acc r =>
         rbind acc (fun ret =>
         rbind (deref (fromFilter m)) (fun re =>
         if MatchString re r
         then Ok (ret ++ [normalizePath r])
         else Ok ret)))
      repos (Ok [])
  else Ok repos.

(** [func (m *Mapping) mapPath(p string) string], on a non-nil receiver. *)
Definition mapPath (m : Mapping) (p : string) : result string :=
  if isRegexpTo m then
    rbind (deref (toFilter m)) (fun re =>
    Ok (ReplaceAllString re p (toReplace m)))
  else if negb (To m =? EmptyString)%string then
    if isRegexpFrom m then Ok (To m ++ p)%string
    else Ok (To m)
  else Ok p.

(** [func (m *Mapping) hasSince() bool] *)
Definition hasSince (m : Mapping) : bool := sinceDuration m >? 0.

(** [func (m *Mapping) onlyActive() bool] *)
Definition onlyActive (m : Mapping) : bool := onlyActiveFlag m.

End Mapping.

End sync.

(** ** Specification-side vocabulary *)

(** [strings.Join] for a one-byte separator, the inverse that pins down
    what [strings.Split] computes. *)
Fixpoint Join (pieces : list string) (sep : ascii) : string :=
  match pieces with
  | [] => EmptyString
  | [piece] => piece
  | piece :: rest => (piece ++ String sep (Join rest sep))%string
  end.

(** The byte [c] occurs in [s]. *)
Fixpoint occurs (c : ascii) (s : string) : bool :=
  match s with
  | EmptyString => false
  | String c' s' => (Ascii.eqb c' c || occurs c s')%bool
  end.

(** The [i]-th dot-separated component of a host name, empty when there is
    none. *)
Definition component (url : list string) (i : nat) : string :=
  nth i url EmptyString.

(** The structural pattern of a managed-registry host name. *)
Definition managedShape (url : list string) : Prop :=
  (List.length url = 6%nat \/ List.length url = 7%nat) /\
  component url 1 = "dkr" /\
  component url 2 = "ecr" /\
  component url 4 = "amazonaws" /\
  component url 5 = "com" /\
  (List.length url = 7%nat -> component url 6 = "cn").

(** [managedShape], decided. *)
Definition managedShapeb (url : list string) : bool :=
  ((Nat.eqb (List.length url) 6 || Nat.eqb (List.length url) 7) &&
   (component url 1 =? "dkr")%string &&
   (component url 2 =? "ecr")%string &&
   (component url 4 =? "amazonaws")%string &&
   (component url 5 =? "com")%string &&
   (Nat.eqb (List.length url) 6 || (component url 6 =? "cn")%string))%bool.

(** *** Vocabulary for the paginated listing *)

(** The elements of a slice. *)
Definition elems (s : registry.slice) : list string :=
  match s with
  | None => []
  | Some xs => xs
  end.

(** The repository names a page carries, in order. *)
Definition names (page : registry.DescribeRepositoriesOutput) : list string :=
  map (fun r => registry.StringValue (registry.RepositoryName r))
      (registry.Repositories page).

(** The pages a backend serves when every page is asked for. *)
Fixpoint pages (b : registry.backend) : list registry.DescribeRepositoriesOutput :=
  match b with
  | registry.Fail _ => []
  | registry.LastPage page => [page]
  | registry.NextPage page rest => page :: pages rest
  end.

(** The error of the request that fails after the pages, if one does. *)
Fixpoint failure (b : registry.backend) : option error :=
  match b with
  | registry.Fail err => Some err
  | registry.LastPage _ => None
  | registry.NextPage _ rest => failure rest
  end.

(** All names of the first [k] pages. *)
Definition namesUpTo (k : nat) (b : registry.backend) : list string :=
  flat_map names (firstn k (pages b)).

(** All names the backend holds. *)
Definition allNames (b : registry.backend) : list string :=
  flat_map names (pages b).

(** The backend honours the requested page size. *)
Definition pageSizeHonoured (limit : Z) (b : registry.backend) : Prop :=
  Forall (fun page => len (registry.Repositories page) <= limit) (pages b).

(** A run that has accumulated [n] names and goes on with the requests of
    [b] reaches a request that fails with [err]: every page before it made
    the callback ask for more. *)
Inductive reachesFailure (maxItems : Z) : registry.backend -> Z -> error -> Prop :=
| fails_now (n : Z) (err : error) :
    reachesFailure maxItems (registry.Fail err) n err
| fails_later (n : Z) (err : error)
    (page : registry.DescribeRepositoriesOutput) (rest : registry.backend) :
    maxItems <= 0 \/ n + len (names page) < maxItems ->
    reachesFailure maxItems rest (n + len (names page)) err ->
    reachesFailure maxItems (registry.NextPage page rest) n err.

(** The request [Retrieve] sends. *)
Definition listingInput (e : registry.ecr) : registry.DescribeRepositoriesInput :=
  {| registry.RegistryId := registry.account e; registry.MaxResults := 100 |}.

(** *** Vocabulary for mapping rules *)
Section MappingVocabulary.
Context {ext : sync.Collaborators}.

(** [s] without its first [n] bytes. *)
Fixpoint dropBytes (n : nat) (s : string) : string :=
  match n, s with
  | S k, String _ s' => dropBytes k s'
  | _, _ => s
  end.

(** What follows the reserved prefix. *)
Definition regexPart (s : string) : string :=
  dropBytes (String.length sync.RegexpPrefix) s.

(** The pattern and the replacement template of a regex [to]: the text
    before and after the first comma, when there is a comma. *)
Definition toParts (to : string) : option (string * string) :=
  strings.cut "," (regexPart to).

Definition valueOf {A : Type} (r : A + error) : option A :=
  match r with
  | inl a => Some a
  | inr _ => None
  end.

(** The validation rules of the specification, each giving the error it
    raises on the raw fields, if any.  Rule 1: a source path is present. *)
Definition ruleFromPresent (m : sync.Mapping) : option error :=
  if (sync.From m =? EmptyString)%string
  then Some "mapping without 'From' path"
  else None.

(** Rule 2: a regex [from] compiles as an anchored pattern. *)
Definition ruleFromCompiles (m : sync.Mapping) : option error :=
  if sync.isRegexp (sync.From m) then
    match sync.CompileRegex (regexPart (sync.From m)) true with
    | inl _ => None
    | inr err =>
        Some ("'from' uses invalid regular expression '"
              ++ regexPart (sync.From m) ++ "': " ++ err)%string
    end
  else None.

(** Rule 4: a regex [to] has a comma, and what precedes it compiles as an
    unanchored pattern. *)
Definition ruleToCompiles (m : sync.Mapping) : option error :=
  if sync.isRegexp (sync.To m) then
    match toParts (sync.To m) with
    | None => Some "replacement expression missing in 'to'"
    | Some (pattern, _) =>
        match sync.CompileRegex pattern false with
        | inl _ => None
        | inr err =>
            Some ("'to' uses invalid regular expression '"
                  ++ pattern ++ "': " ++ err)%string
        end
    end
  else None.

(** Rule 6: the tag specs build a selector. *)
Definition ruleTags (m : sync.Mapping) : option error :=
  match sync.NewTagSet (sync.Tags m) with
  | inl _ => None
  | inr err => Some ("'tags' uses invalid format: " ++ err)%string
  end.

(** Rule 8: a [since] that is present parses as a duration. *)
Definition ruleSince (m : sync.Mapping) : option error :=
  if (sync.Since m =? EmptyString)%string then None
  else match sync.ParseDuration (sync.Since m) with
       | inl _ => None
       | inr err => Some err
       end.

Fixpoint firstError (rules : list (option error)) : option error :=
  match rules with
  | [] => None
  | Some err :: _ => Some err
  | None :: rest => firstError rest
  end.

(** The error of the first rule the raw fields violate; rules 3, 5 and 7
    (normalization, the lenient [only_active]) raise none. *)
Definition verdict (m : sync.Mapping) : option error :=
  firstError [ruleFromPresent m; ruleFromCompiles m; ruleToCompiles m;
              ruleTags m; ruleSince m].

(** The compiled mapping that validation leaves behind when no rule is
    violated, field by field. *)
Definition compiled (m : sync.Mapping) : sync.Mapping :=
  {| sync.From :=
       if sync.isRegexp (sync.From m) then sync.From m
       else sync.normalizePath (sync.From m);
     sync.To :=
       if sync.isRegexp (sync.To m) then sync.To m
       else if (sync.To m =? EmptyString)%string then sync.To m
       else sync.normalizePath (sync.To m);
     sync.Tags := sync.Tags m;
     sync.Platform := sync.Platform m;
     sync.OnlyActive := sync.OnlyActive m;
     sync.Since := sync.Since m;
     sync.fromFilter :=
       if sync.isRegexp (sync.From m)
       then valueOf (sync.CompileRegex (regexPart (sync.From m)) true)
       else sync.fromFilter m;
     sync.toFilter :=
       if sync.isRegexp (sync.To m)
       then match toParts (sync.To m) with
            | Some (pattern, _) => valueOf (sync.CompileRegex pattern false)
            | None => sync.toFilter m
            end
       else sync.toFilter m;
     sync.onlyActiveFlag :=
       if (sync.OnlyActive m =? EmptyString)%string then false
       else fst (strconv.ParseBool (sync.OnlyActive m));
     sync.sinceDuration :=
       if (sync.Since m =? EmptyString)%string then sync.sinceDuration m
       else match sync.ParseDuration (sync.Since m) with
            | inl d => d
            | inr _ => 0
            end;
     sync.toReplace :=
       if sync.isRegexp (sync.To m)
       then match toParts (sync.To m) with
            | Some (_, template) => template
            | None => sync.toReplace m
            end
       else sync.toReplace m;
     sync.tagSet :=
       match sync.NewTagSet (sync.Tags m) with
       | inl tags => Some tags
       | inr _ => sync.tagSet m
       end |}.

(** The error a call returned, if it returned. *)
Definition returnedError (o : sync.outcome) : option (option error) :=
  match o with
  | sync.Returned err => Some err
  | sync.Panicked _ => None
  end.

End MappingVocabulary.

(** Raw fields with another [only_active], [since] or [to] value. *)
Section MappingVariants.
Context {ext : sync.Collaborators}.

Definition withOnlyActive (v : string) (m : sync.Mapping) : sync.Mapping :=
  {| sync.From := sync.From m; sync.To := sync.To m; sync.Tags := sync.Tags m;
     sync.Platform := sync.Platform m;
     sync.OnlyActive := v; sync.Since := sync.Since m;
     sync.fromFilter := sync.fromFilter m; sync.toFilter := sync.toFilter m;
     sync.onlyActiveFlag := sync.onlyActiveFlag m;
     sync.sinceDuration := sync.sinceDuration m;
     sync.toReplace := sync.toReplace m; sync.tagSet := sync.tagSet m |}.

Definition withSince (v : string) (m : sync.Mapping) : sync.Mapping :=
  {| sync.From := sync.From m; sync.To := sync.To m; sync.Tags := sync.Tags m;
     sync.Platform := sync.Platform m;
     sync.OnlyActive := sync.OnlyActive m; sync.Since := v;
     sync.fromFilter := sync.fromFilter m; sync.toFilter := sync.toFilter m;
     sync.onlyActiveFlag := sync.onlyActiveFlag m;
     sync.sinceDuration := sync.sinceDuration m;
     sync.toReplace := sync.toReplace m; sync.tagSet := sync.tagSet m |}.

Definition withTo (v : string) (m : sync.Mapping) : sync.Mapping :=
  {| sync.From := sync.From m; sync.To := v; sync.Tags := sync.Tags m;
     sync.Platform := sync.Platform m;
     sync.OnlyActive := sync.OnlyActive m; sync.Since := sync.Since m;
     sync.fromFilter := sync.fromFilter m; sync.toFilter := sync.toFilter m;
     sync.onlyActiveFlag := sync.onlyActiveFlag m;
     sync.sinceDuration := sync.sinceDuration m;
     sync.toReplace := sync.toReplace m; sync.tagSet := sync.tagSet m |}.

(** A call of [validate] on [m] that returned no error. *)
Definition validates (m : sync.Mapping) : Prop :=
  exists m' : sync.Mapping, sync.validate (Some m) = (Some m', sync.Returned None).

(** A call of [validate] on [m] that returned an error. *)
Definition rejected (m : sync.Mapping) : Prop :=
  exists (m' : sync.Mapping) (err : error),
    sync.validate (Some m) = (Some m', sync.Returned (Some err)).

End MappingVariants.

(** *** Test doubles for the AWS SDK and the collaborators *)
Module doubles.

Definition repoNamed (i : nat) : registry.Repository :=
  {| registry.RepositoryName :=
       Some ("repo-" ++ NilEmpty.string_of_uint (Nat.to_uint i))%string |}.

(** A page holding the [n] repositories numbered from [first]. *)
Definition pageOf (first n : nat) : registry.DescribeRepositoriesOutput :=
  {| registry.Repositories := map repoNamed (seq first n) |}.

(** 150 repositories, served as a page of 100 and a page of 50. *)
Definition twoPages : registry.AWS :=
  {| registry.Session := unit;
     registry.NewSession := inl tt;
     registry.describeRepositories := fun _ _ _ =>
       registry.NextPage (pageOf 0 100) (registry.LastPage (pageOf 100 50)) |}.

(** The first page arrives, the request for the second one fails. *)
Definition secondPageFails : registry.AWS :=
  {| registry.Session := unit;
     registry.NewSession := inl tt;
     registry.describeRepositories := fun _ _ _ =>
       registry.NextPage (pageOf 0 100) (registry.Fail "RequestError: send request failed") |}.

(** No session can be built. *)
Definition noSession : registry.AWS :=
  {| registry.Session := unit;
     registry.NewSession := inr "NoCredentialProviders: no valid providers in chain";
     registry.describeRepositories := fun _ _ _ =>
       registry.LastPage (pageOf 0 0) |}.

(** A regular-expression engine for literal patterns only: a pattern
    matches its own text, anchored patterns the whole input, and a
    replacement template is inserted as it is. *)
Inductive literalRegexp : Type :=
| Literal (pattern : string) (anchored : bool).

Fixpoint contains (pattern s : string) : bool :=
  (String.prefix pattern s ||
   match s with
   | EmptyString => false
   | String _ s' => contains pattern s'
   end)%bool.

Fixpoint replaceAll (pattern template : string) (skip : nat) (s : string) : string :=
  match s with
  | EmptyString => EmptyString
  | String c s' =>
      match skip with
      | S k => replaceAll pattern template k s'
      | O =>
          if String.prefix pattern s
          then (template ++ replaceAll pattern template (String.length pattern - 1) s')%string
          else String c (replaceAll pattern template 0 s')
      end
  end.

Definition literalEngine : sync.Collaborators :=
  {| sync.Regexp := literalRegexp;
     sync.CompileRegex := fun pattern anchored =>
       if occurs "(" pattern
       then inr ("error parsing regexp: missing closing ): " ++ pattern)%string
       else inl (Literal pattern anchored);
     sync.MatchString := fun re s =>
       match re with
       | Literal pattern true => (s =? pattern)%string
       | Literal pattern false => contains pattern s
       end;
     sync.ReplaceAllString := fun re src template =>
       match re with
       | Literal EmptyString _ => src
       | Literal pattern _ => replaceAll pattern template 0 src
       end;
     sync.TagSet := list string;
     sync.NewTagSet := fun specs =>
       if existsb (fun spec => (spec =? EmptyString)%string) specs
       then inr "empty tag spec"
       else inl specs;
     sync.ParseDuration := fun s =>
       if (s =? "0")%string then inl 0
       else if (s =? "1h")%string then inl 3600000000000
       else if (s =? "-1h")%string then inl (-3600000000000)
       else if (s =? "90m")%string then inl 5400000000000
       else inr ("time: invalid duration " ++ s)%string |}.

(** Raw mapping fields as the configuration loader delivers them. *)
Definition rawMapping (from to onlyActive since : string)
  : sync.Mapping (ext := literalEngine) :=
  {| sync.From := from; sync.To := to; sync.Tags := [];
     sync.Platform := EmptyString;
     sync.OnlyActive := onlyActive; sync.Since := since;
     sync.fromFilter := None; sync.toFilter := None;
     sync.onlyActiveFlag := false; sync.sinceDuration := 0;
     sync.toReplace := EmptyString; sync.tagSet := None |}.

(** [from] and [to] both in regex form. *)
Definition renameRule : sync.Mapping (ext := literalEngine) :=
  rawMapping "regex:foo/a" "regex:foo,bar" EmptyString EmptyString.

(** A regex [from] with a literal [to]. *)
Definition prefixRule : sync.Mapping (ext := literalEngine) :=
  rawMapping "regex:foo/a" "prefix" EmptyString EmptyString.

(** A literal [from] and no [to]. *)
Definition plainRule : sync.Mapping (ext := literalEngine) :=
  rawMapping "myimage" EmptyString EmptyString EmptyString.

(** A regex [to] whose template, after the comma, is empty. *)
Definition emptyTemplateRule : sync.Mapping (ext := literalEngine) :=
  rawMapping "myimage" "regex:foo," EmptyString EmptyString.

(** A regex [to] without a comma. *)
Definition noCommaRule : sync.Mapping (ext := literalEngine) :=
  rawMapping "myimage" "regex:foo" EmptyString EmptyString.

Definition notABoolRule : sync.Mapping (ext := literalEngine) :=
  rawMapping "myimage" EmptyString "not-a-bool" EmptyString.

Definition notADurationRule : sync.Mapping (ext := literalEngine) :=
  rawMapping "myimage" EmptyString EmptyString "not-a-duration".

Definition negativeSinceRule : sync.Mapping (ext := literalEngine) :=
  rawMapping "myimage" EmptyString EmptyString "-1h".

Definition someECR : registry.ecr :=
  registry.newECR "123456789012.dkr.ecr.us-east-1.amazonaws.com"
                  "us-east-1" "123456789012".

End doubles.

(** *** Vocabulary for further facts *)

(** The host name built from an account, a region and a domain suffix. *)
Definition managedHost (account region suffix : string) : string :=
  (account ++ ".dkr.ecr." ++ region ++ suffix)%string.

(** A backend that serves the pages [ps], each with a continuation token,
    and then goes on as [rest]. *)
Definition followedBy (ps : list registry.DescribeRepositoriesOutput)
    (rest : registry.backend) : registry.backend :=
  fold_right registry.NextPage rest ps.

(** The bound [wide] lets a run continue whenever the bound [narrow] does:
    it is no bound at all, or both are bounds and [wide] is the larger. *)
Definition atLeastAsWide (narrow wide : Z) : Prop :=
  wide <= 0 \/ (0 < narrow /\ narrow <= wide).

(** [xs] is an initial segment of [ys]. *)
Definition initialSegment {A : Type} (xs ys : list A) : Prop :=
  exists more : list A, ys = xs ++ more.

(** A path that begins with a slash. *)
Definition absolute (p : string) : bool := strings.HasPrefix p "/".

(** The spellings [strconv.ParseBool] reads as true. *)
Definition trueSpellings : list string :=
  ["1"; "t"; "T"; "true"; "TRUE"; "True"].

(** ** Facts about the string helpers *)
Section StringFacts.

Lemma Split_not_nil (s : string) (sep : ascii) : strings.Split s sep <> [].
Proof.
  destruct s as [|c s]; simpl; [discriminate|].
  destruct (Ascii.eqb c sep); [discriminate|].
  destruct (strings.Split s sep); discriminate.
Qed.

Lemma Join_cons_char (c sep : ascii) (piece : string) (rest : list string) :
  Join (String c piece :: rest) sep = String c (Join (piece :: rest) sep).
Proof. destruct rest; reflexivity. Qed.

(** Joining the pieces with the separator gives the string back. *)
Lemma Join_Split (s : string) (sep : ascii) : Join (strings.Split s sep) sep = s.
Proof.
  induction s as [|c s IH]; [reflexivity|].
  simpl. destruct (Ascii.eqb_spec c sep) as [->|Hne].
  - pose proof (Split_not_nil s sep) as Hnil.
    destruct (strings.Split s sep) as [|p ps] eqn:E; [contradiction|].
    change (Join (EmptyString :: p :: ps) sep) with (String sep (Join (p :: ps) sep)).
    now rewrite IH.
  - pose proof (Split_not_nil s sep) as Hnil.
    destruct (strings.Split s sep) as [|p ps] eqn:E; [contradiction|].
    rewrite Join_cons_char. now rewrite IH.
Qed.

(** No piece contains the separator. *)
Lemma Split_pieces_clean (s : string) (sep : ascii) :
  Forall (fun piece => occurs sep piece = false) (strings.Split s sep).
Proof.
  induction s as [|c s IH]; simpl.
  - constructor; [reflexivity|constructor].
  - destruct (Ascii.eqb c sep) eqn:Ec.
    + constructor; [reflexivity|exact IH].
    + destruct (strings.Split s sep) as [|p ps].
      * constructor; [simpl; now rewrite Ec|constructor].
      * inversion IH as [|? ? Hp Hps]; subst.
        constructor; [simpl; now rewrite Ec, Hp|exact Hps].
Qed.

Lemma cut_None (sep : ascii) (s : string) :
  strings.cut sep s = None <-> occurs sep s = false.
Proof.
  induction s as [|c s IH]; simpl; [tauto|].
  destruct (Ascii.eqb c sep); simpl; [split; discriminate|].
  destruct (strings.cut sep s) as [[a b]|]; [|tauto].
  split; [discriminate|]. intros H. apply IH in H. discriminate.
Qed.

Lemma cut_Some (sep : ascii) (s a b : string) :
  strings.cut sep s = Some (a, b) ->
  s = (a ++ String sep b)%string /\ occurs sep a = false.
Proof.
  revert a b. induction s as [|c s IH]; simpl; intros a b H; [discriminate|].
  destruct (Ascii.eqb_spec c sep) as [->|Hne].
  - inversion H; subst. split; reflexivity.
  - destruct (strings.cut sep s) as [[a' b']|]; [|discriminate].
    inversion H; subst. destruct (IH a' b eq_refl) as [-> Ha].
    split; [reflexivity|]. simpl. rewrite Ha.
    destruct (Ascii.eqb_spec c sep); [contradiction|reflexivity].
Qed.

(** [SplitN(s, sep, 2)]: the whole string when it has no separator, else the
    text before the first separator and everything after it. *)
Lemma SplitN_2 (s : string) (sep : ascii) :
  strings.SplitN s sep 2 =
  match strings.cut sep s with
  | None => [s]
  | Some (a, b) => [a; b]
  end.
Proof.
  unfold strings.SplitN. simpl.
  destruct (strings.cut sep s) as [[a b]|]; reflexivity.
Qed.

Lemma sliceFrom_prefix (pre s : string) :
  String.prefix pre s = true ->
  exists rest, sliceFrom s (String.length pre) = Ok rest /\ s = (pre ++ rest)%string.
Proof.
  revert s. induction pre as [|c pre IH]; intros s H; simpl.
  - exists s. split; reflexivity.
  - destruct s as [|c' s]; simpl in H; [discriminate|].
    destruct (Ascii.ascii_dec c c') as [->|]; [|discriminate].
    destruct (IH s H) as [rest [E ->]]. exists rest. split; [exact E|reflexivity].
Qed.

End StringFacts.

(** ** The registry identifier *)
Section RegistryIdentifier.

Lemma len_eqb {A : Type} (xs : list A) (n : nat) :
  (len xs =? Z.of_nat n) = Nat.eqb (List.length xs) n.
Proof.
  unfold len. destruct (Nat.eqb_spec (List.length xs) n) as [->|Hne].
  - apply Z.eqb_refl.
  - apply Z.eqb_neq. lia.
Qed.

Lemma managedShapeb_spec (url : list string) :
  managedShapeb url = true <-> managedShape url.
Proof.
  unfold managedShapeb, managedShape.
  rewrite !andb_true_iff, !orb_true_iff, !Nat.eqb_eq, !String.eqb_eq.
  split.
  - intros [[[[[Hl H1] H2] H4] H5] H6]. repeat split; try assumption.
    intros H7. destruct H6 as [H6|H6]; [congruence|exact H6].
  - intros [Hl [H1 [H2 [H4 [H5 H6]]]]]. repeat split; try assumption.
    destruct Hl as [Hl|Hl]; [now left|right; now apply H6].
Qed.

(** [IsECR], with the guarded component accesses carried out. *)
Lemma IsECR_value (host : string) :
  let url := strings.Split host "." in
  registry.IsECR host =
  Ok (if managedShapeb url
      then (true, component url 3, component url 0)
      else (false, EmptyString, EmptyString)).
Proof.
  intros url. unfold registry.IsECR. fold url.
  change 6 with (Z.of_nat 6). change 7 with (Z.of_nat 7).
  rewrite !len_eqb. unfold managedShapeb, component.
  destruct url as [|u0 [|u1 [|u2 [|u3 [|u4 [|u5 [|u6 [|u7 t]]]]]]]];
    try reflexivity.
  - cbn.
    destruct (u1 =? "dkr")%string; [|reflexivity].
    destruct (u2 =? "ecr")%string; [|reflexivity].
    destruct (u4 =? "amazonaws")%string; [|reflexivity].
    destruct (u5 =? "com")%string; reflexivity.
  - cbn.
    destruct (u1 =? "dkr")%string; [|reflexivity].
    destruct (u2 =? "ecr")%string; [|reflexivity].
    destruct (u4 =? "amazonaws")%string; [|reflexivity].
    destruct (u5 =? "com")%string; [|reflexivity].
    destruct (u6 =? "cn")%string; reflexivity.
Qed.

(** C5: a host name is classified as a managed registry exactly when its
    dot-separated components have the managed shape (6 or 7 components,
    "dkr", "ecr", "amazonaws", "com" at positions 1, 2, 4, 5, and "cn" at
    position 6 when there are 7); then region and account are components 3
    and 0, and otherwise both are empty. *)
Theorem IsECR_classification (host : string) :
  exists (ecr : bool) (region account : string),
    registry.IsECR host = Ok (ecr, region, account) /\
    (ecr = true <-> managedShape (strings.Split host ".")) /\
    (ecr = true ->
       region = component (strings.Split host ".") 3 /\
       account = component (strings.Split host ".") 0) /\
    (ecr = false -> region = EmptyString /\ account = EmptyString).
Proof.
  pose proof (IsECR_value host) as E. cbv zeta in E.
  pose proof (managedShapeb_spec (strings.Split host ".")) as S.
  destruct (managedShapeb (strings.Split host ".")) eqn:B.
  - eexists _, _, _. split; [exact E|]. split; [|split].
    + split; [intros _; now apply S|reflexivity].
    + intros _. split; reflexivity.
    + discriminate.
  - eexists _, _, _. split; [exact E|]. split; [|split].
    + split; [discriminate|]. intros H. apply S in H. discriminate.
    + discriminate.
    + intros _. split; reflexivity.
Qed.

(** C6: [IsECR] never panics: every component access is reached only under
    the length test.  A host name with fewer than 6 components is
    classified as not managed, with empty region and account. *)
Theorem IsECR_total (host : string) :
  (exists (ecr : bool) (region account : string),
     registry.IsECR host = Ok (ecr, region, account)) /\
  (forall why, registry.IsECR host <> Panic why) /\
  ((List.length (strings.Split host ".") < 6)%nat ->
     registry.IsECR host = Ok (false, EmptyString, EmptyString)).
Proof.
  pose proof (IsECR_value host) as E. cbv zeta in E.
  split; [|split].
  - rewrite E. destruct (managedShapeb _); eexists _, _, _; reflexivity.
  - intros why H. rewrite E in H. discriminate.
  - intros Hlt. rewrite E.
    destruct (managedShapeb (strings.Split host ".")) eqn:B; [|reflexivity].
    apply managedShapeb_spec in B. destruct B as [[Hl|Hl] _]; lia.
Qed.

Example IsECR_aws :
  registry.IsECR "123456789012.dkr.ecr.us-east-1.amazonaws.com"
  = Ok (true, "us-east-1", "123456789012").
Proof. reflexivity. Qed.

Example IsECR_aws_cn :
  registry.IsECR "123456789012.dkr.ecr.cn-north-1.amazonaws.com.cn"
  = Ok (true, "cn-north-1", "123456789012").
Proof. reflexivity. Qed.

Example IsECR_other :
  registry.IsECR "registry.example.com" = Ok (false, EmptyString, EmptyString).
Proof. reflexivity. Qed.

Example IsECR_empty :
  registry.IsECR EmptyString = Ok (false, EmptyString, EmptyString).
Proof. reflexivity. Qed.

End RegistryIdentifier.

(** ** The managed-registry list source *)
Section Listing.
Context {aws : registry.AWS}.

Lemma slen_elems (s : registry.slice) : registry.slen s = len (elems s).
Proof. destruct s; reflexivity. Qed.

Lemma len_app {A : Type} (xs ys : list A) : len (xs ++ ys) = len xs + len ys.
Proof. unfold len. rewrite length_app. lia. Qed.

Lemma len_names (page : registry.DescribeRepositoriesOutput) :
  len (names page) = len (registry.Repositories page).
Proof. unfold names, len. now rewrite length_map. Qed.

Lemma elems_append (s : registry.slice) (x : string) :
  elems (registry.append s x) = elems s ++ [x].
Proof. destruct s; reflexivity. Qed.

(** The callback appends the whole page, whatever the bound. *)
Lemma collect_elems (maxItems : Z) (page : registry.DescribeRepositoriesOutput)
    (lastPage : bool) (ret : registry.slice) :
  elems (fst (registry.collect maxItems page lastPage ret)) = elems ret ++ names page.
Proof.
  unfold registry.collect, names. cbn [fst].
  generalize (registry.Repositories page) as rs. intros rs. revert ret.
  induction rs as [|r rs IH]; intros ret; simpl.
  - now rewrite app_nil_r.
  - rewrite IH, elems_append, <- app_assoc. reflexivity.
Qed.

(** The callback asks for more exactly when there is no bound or the
    count is still below it. *)
Lemma collect_more (maxItems : Z) (page : registry.DescribeRepositoriesOutput)
    (lastPage : bool) (ret : registry.slice) :
  snd (registry.collect maxItems page lastPage ret) = true <->
  maxItems <= 0 \/ len (elems ret ++ names page) < maxItems.
Proof.
  rewrite <- collect_elems with (maxItems := maxItems) (lastPage := lastPage).
  rewrite <- slen_elems. unfold registry.collect. cbn [fst snd].
  rewrite orb_true_iff, Z.leb_le, Z.ltb_lt. reflexivity.
Qed.

(** A run of the pagination driver that ends without error took the first
    [k] pages whole. *)
Lemma driver_success (maxItems : Z) (b : registry.backend) :
  forall acc ret,
    registry.DescribeRepositoriesPages b (registry.collect maxItems) acc = (ret, None) ->
    exists k : nat,
      (1 <= k <= List.length (pages b))%nat /\
      elems ret = elems acc ++ namesUpTo k b /\
      (forall j : nat, (1 <= j < k)%nat ->
         maxItems <= 0 \/ len (elems acc ++ namesUpTo j b) < maxItems) /\
      ((k < List.length (pages b))%nat \/ failure b <> None ->
         0 < maxItems <= len (elems ret)).
Proof.
  induction b as [err|page|page rest IH]; intros acc ret H;
    cbn [registry.DescribeRepositoriesPages] in H.
  - discriminate.
  - pose proof (collect_elems maxItems page true acc) as He.
    destruct (registry.collect maxItems page true acc) as [st' more].
    cbn [fst] in He, H. injection H as <-. exists 1%nat. unfold namesUpTo.
    cbn [pages firstn flat_map List.length]. rewrite app_nil_r.
    split; [lia|]. split; [exact He|].
    split; [intros j Hj; lia|]. intros [Hk|Hf]; [lia|now contradiction Hf].
  - pose proof (collect_elems maxItems page false acc) as He.
    pose proof (collect_more maxItems page false acc) as Hm.
    destruct (registry.collect maxItems page false acc) as [st' more].
    cbn [fst snd] in He, Hm. destruct more.
    + destruct (IH _ _ H) as [k [Hk [Hret [Hbelow Hstop]]]].
      exists (S k). unfold namesUpTo in *.
      cbn [pages firstn flat_map List.length].
      split; [lia|]. split; [rewrite Hret, He, <- app_assoc; reflexivity|].
      split.
      * intros j Hj. destruct j as [|[|j]]; [lia| |].
        -- cbn [firstn flat_map]. rewrite app_nil_r. now apply Hm.
        -- specialize (Hbelow (S j) ltac:(lia)). rewrite He, <- app_assoc in Hbelow.
           exact Hbelow.
      * intros [Hlt|Hf]; apply Hstop; [left; lia|right; exact Hf].
    + injection H as <-. exists 1%nat. unfold namesUpTo.
      cbn [pages firstn flat_map List.length]. rewrite app_nil_r. split; [lia|]. split; [exact He|].
      split; [intros j Hj; lia|]. intros _.
      assert (Hn : ~ (maxItems <= 0 \/ len (elems acc ++ names page) < maxItems)).
      { intros Hc. apply Hm in Hc. discriminate. }
      rewrite He. lia.
Qed.

(** With a positive bound and fewer names accumulated than the bound, a
    successful run overshoots the bound by less than one page. *)
Lemma driver_overshoot (maxItems limit : Z) (b : registry.backend) :
  0 < maxItems ->
  pageSizeHonoured limit b ->
  forall acc ret,
    len (elems acc) < maxItems ->
    registry.DescribeRepositoriesPages b (registry.collect maxItems) acc = (ret, None) ->
    len (elems ret) <= maxItems + limit - 1.
Proof.
  intros Hpos. unfold pageSizeHonoured.
  induction b as [err|page|page rest IH]; intros Hsz acc ret Hacc H;
    cbn [registry.DescribeRepositoriesPages] in H.
  - discriminate.
  - pose proof (collect_elems maxItems page true acc) as He.
    destruct (registry.collect maxItems page true acc) as [st' more].
    cbn [fst] in He, H. injection H as <-. rewrite He, len_app, len_names.
    simpl in Hsz. inversion Hsz; subst. lia.
  - pose proof (collect_elems maxItems page false acc) as He.
    pose proof (collect_more maxItems page false acc) as Hm.
    destruct (registry.collect maxItems page false acc) as [st' more].
    cbn [fst snd] in He, Hm. simpl in Hsz. inversion Hsz as [|? ? Hp Hrest]; subst.
    destruct more.
    + apply (IH Hrest st' ret); [|exact H].
      rewrite He. destruct Hm as [Hm _]. destruct (Hm eq_refl); lia.
    + injection H as <-. rewrite He, len_app, len_names. lia.
Qed.

(** A run that reaches a failing request ends with that request's error. *)
Lemma driver_failure (maxItems : Z) (b : registry.backend) (n : Z) (err : error) :
  reachesFailure maxItems b n err ->
  forall acc, len (elems acc) = n ->
    snd (registry.DescribeRepositoriesPages b (registry.collect maxItems) acc) = Some err.
Proof.
  induction 1 as [n err|n err page rest Hmore Hrest IH]; intros acc Hacc;
    cbn [registry.DescribeRepositoriesPages].
  - reflexivity.
  - pose proof (collect_elems maxItems page false acc) as He.
    pose proof (collect_more maxItems page false acc) as Hm.
    destruct (registry.collect maxItems page false acc) as [st' more].
    cbn [fst snd] in He, Hm.
    assert (more = true) as ->.
    { apply Hm. rewrite len_app, Hacc. exact Hmore. }
    apply IH. rewrite He, len_app, Hacc. reflexivity.
Qed.

End Listing.

Section Retrieve.
Context {aws : registry.AWS}.

Lemma namesUpTo_all (b : registry.backend) :
  namesUpTo (List.length (pages b)) b = allNames b.
Proof. unfold namesUpTo, allNames. now rewrite firstn_all. Qed.

Lemma Retrieve_with_session (e : registry.ecr) (maxItems : Z) (s : registry.Session) :
  registry.NewSession = inl s ->
  registry.Retrieve e maxItems =
  match registry.DescribeRepositoriesPages
          (registry.describeRepositories s (registry.region e) (listingInput e))
          (registry.collect maxItems) None with
  | (_, Some err) => (None, Some ("error listing ECR repositories: " ++ err)%string)
  | (ret, None) => (ret, None)
  end.
Proof.
  intros Hs. unfold registry.Retrieve, registry.getService. rewrite Hs. reflexivity.
Qed.

(** C7: a successful [Retrieve] returns the names of the first [k >= 1]
    pages, whole and in order.  Without a bound ([maxItems <= 0]) these are
    all pages.  With a bound, a further page was requested only while the
    count was below [maxItems], the run stopped short of the last page only
    once the count had reached [maxItems], so the count is at least
    [min total maxItems], and at most [maxItems + 99] when no page holds
    more than the 100 entries asked for. *)
Theorem Retrieve_page_granularity
    (e : registry.ecr) (maxItems : Z) (ret : registry.slice) :
  registry.Retrieve e maxItems = (ret, None) ->
  exists (s : registry.Session) (k : nat),
    registry.NewSession = inl s /\
    let b := registry.describeRepositories s (registry.region e) (listingInput e) in
    registry.MaxResults (listingInput e) = 100 /\
    (1 <= k <= List.length (pages b))%nat /\
    elems ret = namesUpTo k b /\
    (maxItems <= 0 -> elems ret = allNames b /\ failure b = None) /\
    (0 < maxItems ->
       (forall j : nat, (1 <= j < k)%nat -> len (namesUpTo j b) < maxItems) /\
       (registry.slen ret < maxItems -> elems ret = allNames b /\ failure b = None) /\
       Z.min (len (allNames b)) maxItems <= registry.slen ret /\
       (pageSizeHonoured 100 b -> registry.slen ret <= maxItems + 99)).
Proof.
  intros H. destruct registry.NewSession as [s|err] eqn:Hs.
  2:{ unfold registry.Retrieve, registry.getService in H. rewrite Hs in H.
      discriminate. }
  rewrite (Retrieve_with_session e maxItems s Hs) in H.
  set (b := registry.describeRepositories s (registry.region e) (listingInput e)) in *.
  destruct (registry.DescribeRepositoriesPages b (registry.collect maxItems) None)
    as [r [x|]] eqn:Hrun; [discriminate|].
  injection H as ->.
  destruct (driver_success maxItems b None ret Hrun) as [k [Hk [Hret [Hbelow Hstop]]]].
  cbn [elems app] in Hret, Hbelow.
  assert (Hall : ~ ((k < List.length (pages b))%nat \/ failure b <> None) ->
                 elems ret = allNames b /\ failure b = None).
  { intros Hn. assert (k = List.length (pages b)) as Ek by lia.
    split.
    - rewrite Hret, Ek. apply namesUpTo_all.
    - destruct (failure b); [|reflexivity]. exfalso. apply Hn. right. discriminate. }
  exists s, k. split; [reflexivity|]. cbv zeta. fold b.
  split; [reflexivity|]. split; [exact Hk|]. split; [exact Hret|]. split.
  - intros Hle. apply Hall. intros Hc. apply Hstop in Hc. lia.
  - intros Hpos.
    assert (Hshort : registry.slen ret < maxItems ->
                     elems ret = allNames b /\ failure b = None).
    { intros Hlt. apply Hall. intros Hc. apply Hstop in Hc.
      rewrite slen_elems in Hlt. lia. }
    split; [|split; [exact Hshort|split]].
    + intros j Hj. destruct (Hbelow j Hj); [lia|assumption].
    + destruct (Z.lt_ge_cases (registry.slen ret) maxItems) as [Hlt|Hge]; [|lia].
      destruct (Hshort Hlt) as [Heq _]. rewrite slen_elems, Heq. lia.
    + intros Hsz. rewrite slen_elems.
      pose proof (driver_overshoot maxItems 100 b Hpos Hsz None ret) as Hb.
      cbn [elems] in Hb. specialize (Hb Hpos Hrun). lia.
Qed.

(** C8: when the service cannot be built, or a request of the run fails
    (also after pages that were delivered), [Retrieve] returns the nil slice
    and the wrapped error. *)
Theorem Retrieve_fails_atomically
    (e : registry.ecr) (maxItems : Z) (cause : error) :
  registry.NewSession = inr cause \/
  (exists s : registry.Session,
     registry.NewSession = inl s /\
     reachesFailure maxItems
       (registry.describeRepositories s (registry.region e) (listingInput e))
       0 cause) ->
  registry.Retrieve e maxItems =
  (None,
   Some (match registry.NewSession with
         | inr _ => "error getting ECR service: " ++ cause
         | inl _ => "error listing ECR repositories: " ++ cause
         end)%string).
Proof.
  intros [Hs|[s [Hs Hfail]]].
  - unfold registry.Retrieve, registry.getService. rewrite Hs. reflexivity.
  - rewrite (Retrieve_with_session e maxItems s Hs), Hs.
    pose proof (driver_failure maxItems _ 0 cause Hfail None eq_refl) as Hrun.
    destruct (registry.DescribeRepositoriesPages _ _ _) as [r o].
    cbn [snd] in Hrun. subst o. reflexivity.
Qed.

(** Whenever [Retrieve] returns an error, the slice next to it is nil. *)
Lemma Retrieve_error_nil (e : registry.ecr) (maxItems : Z)
    (ret : registry.slice) (err : error) :
  registry.Retrieve e maxItems = (ret, Some err) -> ret = None.
Proof.
  unfold registry.Retrieve. destruct (registry.getService e) as [svc|x].
  - destruct (registry.DescribeRepositoriesPages _ _ _) as [r [y|]]; intros H;
      inversion H; reflexivity.
  - intros H. inversion H. reflexivity.
Qed.

End Retrieve.

Lemma Retrieve_page_granularity_witness :
  registry.Retrieve (aws := doubles.twoPages) doubles.someECR 50
  = (Some (names (doubles.pageOf 0 100)), None) /\
  exists (s : unit) (k : nat),
    @inl unit error tt = inl s /\
    let b := registry.NextPage (doubles.pageOf 0 100)
               (registry.LastPage (doubles.pageOf 100 50)) in
    registry.MaxResults (listingInput doubles.someECR) = 100 /\
    (1 <= k <= List.length (pages b))%nat /\
    elems (Some (names (doubles.pageOf 0 100))) = namesUpTo k b /\
    (50 <= 0 -> elems (Some (names (doubles.pageOf 0 100))) = allNames b /\ failure b = None) /\
    (0 < 50 ->
       (forall j : nat, (1 <= j < k)%nat -> len (namesUpTo j b) < 50) /\
       (registry.slen (Some (names (doubles.pageOf 0 100))) < 50 ->
          elems (Some (names (doubles.pageOf 0 100))) = allNames b /\ failure b = None) /\
       Z.min (len (allNames b)) 50 <= registry.slen (Some (names (doubles.pageOf 0 100))) /\
       (pageSizeHonoured 100 b ->
          registry.slen (Some (names (doubles.pageOf 0 100))) <= 50 + 99)).
Proof.
  split; [vm_compute; reflexivity|].
  apply (Retrieve_page_granularity (aws := doubles.twoPages) doubles.someECR 50
           (Some (names (doubles.pageOf 0 100)))).
  vm_compute; reflexivity.
Defined.

Lemma Retrieve_fails_atomically_witness :
  registry.Retrieve (aws := doubles.secondPageFails) doubles.someECR 0
  = (None, Some "error listing ECR repositories: RequestError: send request failed").
Proof.
  apply (Retrieve_fails_atomically (aws := doubles.secondPageFails)
           doubles.someECR 0 "RequestError: send request failed").
  right. exists tt. split; [reflexivity|].
  apply fails_later; [left; lia|]. apply fails_now.
Defined.

Example Retrieve_unbounded_takes_all :
  registry.Retrieve (aws := doubles.twoPages) doubles.someECR 0
  = (Some (names (doubles.pageOf 0 150)), None).
Proof. vm_compute. reflexivity. Qed.

Example Retrieve_bound_inside_second_page :
  registry.Retrieve (aws := doubles.twoPages) doubles.someECR 101
  = (Some (names (doubles.pageOf 0 150)), None).
Proof. vm_compute. reflexivity. Qed.

Example Retrieve_bound_met_by_first_page :
  registry.Retrieve (aws := doubles.twoPages) doubles.someECR 100
  = (Some (names (doubles.pageOf 0 100)), None).
Proof. vm_compute. reflexivity. Qed.

Example Retrieve_without_session :
  registry.Retrieve (aws := doubles.noSession) doubles.someECR 0
  = (None, Some "error getting ECR service: NoCredentialProviders: no valid providers in chain").
Proof. reflexivity. Qed.

Example Retrieve_stops_before_failure :
  registry.Retrieve (aws := doubles.secondPageFails) doubles.someECR 100
  = (Some (names (doubles.pageOf 0 100)), None).
Proof. vm_compute. reflexivity. Qed.

(** ** Mapping rules *)
Section MappingFacts.
Context {ext : sync.Collaborators}.

Lemma dropBytes_sliceFrom (s : string) (n : nat) :
  (n <= String.length s)%nat -> sliceFrom s n = Ok (dropBytes n s).
Proof.
  revert s. induction n as [|n IH]; intros s Hn.
  - destruct s; reflexivity.
  - destruct s as [|c s]; simpl in *; [lia|]. apply IH. lia.
Qed.

Lemma prefix_length (pre s : string) :
  String.prefix pre s = true -> (String.length pre <= String.length s)%nat.
Proof.
  revert s. induction pre as [|c pre IH]; intros s H; simpl; [lia|].
  destruct s as [|c' s]; simpl in H; [discriminate|].
  destruct (Ascii.ascii_dec c c'); [|discriminate].
  simpl. specialize (IH s H). lia.
Qed.

Lemma sliceFrom_regexPart (s : string) :
  sync.isRegexp s = true ->
  sliceFrom s (String.length sync.RegexpPrefix) = Ok (regexPart s).
Proof.
  intros H. apply dropBytes_sliceFrom. now apply prefix_length.
Qed.

Ltac refused := solve [eexists; split; [reflexivity|discriminate]].
Ltac accepted := solve [eexists; split; [reflexivity|reflexivity]].

Ltac crunch :=
  cbn -[sliceFrom String.length strings.SplitN sync.normalizePath String.eqb
        String.append regexPart sync.isRegexp strconv.ParseBool].

(** [validate]'s body returns the verdict of the rules, never panics, and
    leaves the compiled mapping when no rule is violated. *)
Lemma validateBody_verdict (m : sync.Mapping) :
  exists m' : sync.Mapping,
    sync.validateBody m = (m', sync.Return (verdict m)) /\
    (verdict m = None -> m' = compiled m).
Proof.
  unfold sync.validateBody, verdict, ruleFromPresent, ruleFromCompiles,
    ruleToCompiles, ruleTags, ruleSince, compiled, sync.seq, sync.read,
    sync.assign, sync.eval, sync.return_, sync.skip, sync.isRegexpFrom,
    sync.isRegexpTo.
  destruct (sync.From m =? EmptyString)%string eqn:Efrom; crunch; [refused|].
  destruct (sync.isRegexp (sync.From m)) eqn:EiF; crunch.
  1: rewrite (sliceFrom_regexPart _ EiF); crunch;
     destruct (sync.CompileRegex (regexPart (sync.From m)) true) eqn:EcF; crunch;
     [|refused].
  all: destruct (sync.isRegexp (sync.To m)) eqn:EiT; crunch.
  1,3: rewrite (sliceFrom_regexPart _ EiT); crunch; rewrite SplitN_2;
       unfold toParts;
       destruct (strings.cut "," (regexPart (sync.To m))) as [[pattern template]|];
       crunch; [|refused];
       destruct (sync.CompileRegex pattern false) eqn:EcT; crunch;
       [|refused].
  3,4: destruct (sync.To m =? EmptyString)%string eqn:Eto; crunch.
  all: destruct (sync.NewTagSet (sync.Tags m)) eqn:Etags; crunch;
       [|refused].
  all: destruct (sync.OnlyActive m =? EmptyString)%string eqn:Eactive; crunch.
  all: destruct (sync.Since m =? EmptyString)%string eqn:Esince; crunch;
       [accepted|].
  all: destruct (sync.ParseDuration (sync.Since m)) eqn:Edur; crunch;
       [accepted|refused].
Qed.

(** [validate] on a non-nil receiver. *)
Lemma validate_verdict (m : sync.Mapping) :
  exists m' : sync.Mapping,
    sync.validate (Some m) = (Some m', sync.Returned (verdict m)) /\
    (verdict m = None -> m' = compiled m).
Proof.
  destruct (validateBody_verdict m) as [m' [H C]]. exists m'.
  unfold sync.validate. rewrite H. split; [reflexivity|exact C].
Qed.

Lemma validate_accepts (m : sync.Mapping) :
  verdict m = None ->
  sync.validate (Some m) = (Some (compiled m), sync.Returned None).
Proof.
  intros V. destruct (validate_verdict m) as [m' [H C]].
  rewrite H, V, (C V). reflexivity.
Qed.

Lemma validate_inv (m : sync.Mapping) (r : option sync.Mapping) :
  sync.validate (Some m) = (r, sync.Returned None) ->
  verdict m = None /\ r = Some (compiled m).
Proof.
  intros H. destruct (validate_verdict m) as [m' [H' C]].
  rewrite H' in H. injection H as <- V. split; [exact V|].
  now rewrite (C V).
Qed.

Lemma validates_iff (m : sync.Mapping) : validates m <-> verdict m = None.
Proof.
  split.
  - intros [m' H]. now apply validate_inv in H.
  - intros H. exists (compiled m). now apply validate_accepts.
Qed.

Lemma rejected_iff (m : sync.Mapping) : rejected m <-> verdict m <> None.
Proof.
  destruct (validate_verdict m) as [m' [H C]]. split.
  - intros [m1 [err H1]]. rewrite H1 in H. injection H as _ <-. discriminate.
  - intros V. destruct (verdict m) as [err|]; [|contradiction].
    exists m', err. exact H.
Qed.

End MappingFacts.

Section Validation.
Context {ext : sync.Collaborators}.

Lemma cut_app (sep : ascii) (a b : string) :
  occurs sep a = false ->
  strings.cut sep (a ++ String sep b) = Some (a, b).
Proof.
  induction a as [|c a IH]; simpl; intros H.
  - now rewrite Ascii.eqb_refl.
  - apply orb_false_iff in H. destruct H as [Hc Ha].
    rewrite Hc, (IH Ha). reflexivity.
Qed.

Lemma regexPart_prefixed (rest : string) :
  regexPart (sync.RegexpPrefix ++ rest) = rest.
Proof. reflexivity. Qed.

Lemma isRegexp_prefixed (rest : string) :
  sync.isRegexp (sync.RegexpPrefix ++ rest) = true.
Proof.
  unfold sync.isRegexp, strings.HasPrefix, sync.RegexpPrefix. simpl.
  repeat (destruct (Ascii.ascii_dec _ _) as [_|N]; [|now contradiction N]).
  destruct rest; reflexivity.
Qed.

Lemma firstError_None (rules : list (option error)) :
  firstError rules = None <-> Forall (fun r => r = None) rules.
Proof.
  induction rules as [|[err|] rules IH]; simpl.
  - split; [constructor|reflexivity].
  - split; [discriminate|]. intros H. inversion H; subst. discriminate.
  - rewrite IH. split; [now constructor|]. intros H. now inversion H.
Qed.

(** C9: called on a nil receiver, [validate] returns the error
    "mapping is nil" and touches nothing. *)
Theorem validate_nil_receiver :
  sync.validate None = (None, sync.Returned (Some "mapping is nil")).
Proof. reflexivity. Qed.

(** C4: an empty [from] is an error; a [since] that is present and does
    not parse is an error (the parser's own, when the earlier rules pass);
    the value of [only_active] never changes the returned error, and
    after a call that returned none, an [only_active] that does not parse
    has left [onlyActive()] false. *)
Theorem validate_strict_duration_lenient_bool :
  (forall m : sync.Mapping,
     sync.From m = EmptyString ->
     exists m', sync.validate (Some m)
                = (Some m', sync.Returned (Some "mapping without 'From' path"))) /\
  (forall (m : sync.Mapping) (err : error),
     sync.Since m <> EmptyString ->
     sync.ParseDuration (sync.Since m) = inr err ->
     exists m' e,
       sync.validate (Some m) = (Some m', sync.Returned (Some e)) /\
       (ruleFromPresent m = None -> ruleFromCompiles m = None ->
        ruleToCompiles m = None -> ruleTags m = None -> e = err)) /\
  (forall (m : sync.Mapping) (v : string),
     exists m1 m2 e,
       sync.validate (Some (withOnlyActive v m)) = (Some m1, sync.Returned e) /\
       sync.validate (Some m) = (Some m2, sync.Returned e)) /\
  (forall m m' : sync.Mapping,
     snd (strconv.ParseBool (sync.OnlyActive m)) <> None ->
     sync.validate (Some m) = (Some m', sync.Returned None) ->
     sync.onlyActive m' = false).
Proof.
  split; [|split; [|split]].
  - intros m Hfrom. destruct (validate_verdict m) as [m' [H _]].
    exists m'. rewrite H. unfold verdict, ruleFromPresent. rewrite Hfrom.
    reflexivity.
  - intros m err Hsince Hparse. destruct (validate_verdict m) as [m' [H _]].
    assert (Hrule : ruleSince m = Some err).
    { unfold ruleSince. rewrite Hparse.
      destruct (String.eqb_spec (sync.Since m) EmptyString); [contradiction|reflexivity]. }
    destruct (verdict m) as [e|] eqn:V.
    + exists m', e. split; [exact H|]. intros H1 H2 H4 H6.
      unfold verdict in V. rewrite H1, H2, H4, H6, Hrule in V. simpl in V.
      congruence.
    + exfalso. unfold verdict in V. apply firstError_None in V.
      repeat match goal with
             | V : Forall _ (_ :: _) |- _ => inversion V; subst; clear V
             end.
      congruence.
  - intros m v. destruct (validate_verdict (withOnlyActive v m)) as [m1 [H1 _]].
    destruct (validate_verdict m) as [m2 [H2 _]].
    exists m1, m2, (verdict m). split; [exact H1|exact H2].
  - intros m m' Hbool H. apply validate_inv in H. destruct H as [_ H].
    injection H as ->. unfold sync.onlyActive, compiled. cbn [sync.onlyActiveFlag].
    destruct (sync.OnlyActive m =? EmptyString)%string; [reflexivity|].
    unfold strconv.ParseBool in *.
    destruct (_ || _)%bool; [now contradiction Hbool|].
    destruct (_ || _)%bool; [now contradiction Hbool|reflexivity].
Qed.

(** C10: after a call of [validate] that returned no error, [hasSince()]
    is true exactly when the stored duration is positive, the stored duration
    being the parsed [since] when one is present; and no sign is checked: a
    mapping that validates still validates with any [since] that parses,
    negative ones included, for which [hasSince()] is then false. *)
Theorem hasSince_validated (m m' : sync.Mapping) :
  sync.validate (Some m) = (Some m', sync.Returned None) ->
  (sync.hasSince m' = true <-> 0 < sync.sinceDuration m') /\
  (sync.Since m <> EmptyString ->
     sync.ParseDuration (sync.Since m) = inl (sync.sinceDuration m')) /\
  (sync.Since m = EmptyString -> sync.sinceDuration m' = sync.sinceDuration m) /\
  (forall (since : string) (d : Z),
     since <> EmptyString ->
     sync.ParseDuration since = inl d ->
     exists m'' : sync.Mapping,
       sync.validate (Some (withSince since m)) = (Some m'', sync.Returned None) /\
       sync.sinceDuration m'' = d /\
       (d <= 0 -> sync.hasSince m'' = false)).
Proof.
  intros H. apply validate_inv in H. destruct H as [V H]. injection H as ->.
  unfold verdict in V. apply firstError_None in V.
  repeat match goal with
         | V : Forall _ (_ :: _) |- _ => inversion V; subst; clear V
         end.
  split; [|split; [|split]].
  - unfold sync.hasSince. rewrite Z.gtb_ltb. apply Z.ltb_lt.
  - intros Hs. unfold compiled. cbn [sync.sinceDuration].
    match goal with R : ruleSince m = None |- _ => unfold ruleSince in R end.
    destruct (String.eqb_spec (sync.Since m) EmptyString); [contradiction|].
    destruct (sync.ParseDuration (sync.Since m)); [reflexivity|discriminate].
  - intros Hs. unfold compiled. cbn [sync.sinceDuration]. rewrite Hs. reflexivity.
  - intros since d Hs Hparse.
    assert (V' : verdict (withSince since m) = None).
    { unfold verdict.
      change (ruleFromPresent (withSince since m)) with (ruleFromPresent m).
      change (ruleFromCompiles (withSince since m)) with (ruleFromCompiles m).
      change (ruleToCompiles (withSince since m)) with (ruleToCompiles m).
      change (ruleTags (withSince since m)) with (ruleTags m).
      repeat match goal with R : _ m = None |- _ => rewrite R; clear R end.
      unfold ruleSince. cbn [withSince sync.Since firstError].
      rewrite Hparse. now destruct (since =? EmptyString)%string. }
    exists (compiled (withSince since m)).
    split; [now apply validate_accepts|].
    unfold compiled, sync.hasSince. cbn [sync.sinceDuration withSince sync.Since].
    rewrite Hparse.
    destruct (String.eqb_spec since EmptyString); [contradiction|].
    split; [reflexivity|]. intros Hd. rewrite Z.gtb_ltb. apply Z.ltb_ge. exact Hd.
Qed.

End Validation.

Section RegexTo.
Context {ext : sync.Collaborators}.

Lemma verdict_withTo_same_pattern (m : sync.Mapping) (to1 to2 pattern t1 t2 : string) :
  sync.isRegexp to1 = true -> sync.isRegexp to2 = true ->
  toParts to1 = Some (pattern, t1) -> toParts to2 = Some (pattern, t2) ->
  verdict (withTo to1 m) = verdict (withTo to2 m).
Proof.
  intros R1 R2 P1 P2. unfold verdict.
  change (ruleFromPresent (withTo to1 m)) with (ruleFromPresent (withTo to2 m)).
  change (ruleFromCompiles (withTo to1 m)) with (ruleFromCompiles (withTo to2 m)).
  change (ruleTags (withTo to1 m)) with (ruleTags (withTo to2 m)).
  change (ruleSince (withTo to1 m)) with (ruleSince (withTo to2 m)).
  unfold ruleToCompiles. cbn [withTo sync.To]. now rewrite R1, R2, P1, P2.
Qed.

Lemma withTo_same (m : sync.Mapping) : withTo (sync.To m) m = m.
Proof. destruct m; reflexivity. Qed.

(** C3, amended: for a [to] in regex form, [validate] returns an error when
    no comma follows the prefix (the missing-replacement error, when the
    [from] rules pass); with a comma, the text after the first comma is the
    template, empty or not: the mapping validates exactly when it does with
    the empty template in its place, and a call that returned no error has
    stored the template and the compiled pattern. *)
Theorem validate_regex_to (m : sync.Mapping) :
  sync.isRegexp (sync.To m) = true ->
  (toParts (sync.To m) = None ->
     rejected m /\
     (ruleFromPresent m = None -> ruleFromCompiles m = None ->
      exists m', sync.validate (Some m)
                 = (Some m', sync.Returned (Some "replacement expression missing in 'to'")))) /\
  (forall pattern template : string,
     toParts (sync.To m) = Some (pattern, template) ->
     (validates m <->
      validates (withTo (sync.RegexpPrefix ++ pattern ++ ",") m)) /\
     (forall m' : sync.Mapping,
        sync.validate (Some m) = (Some m', sync.Returned None) ->
        sync.toReplace m' = template /\
        exists re, sync.CompileRegex pattern false = inl re /\
                   sync.toFilter m' = Some re)).
Proof.
  intros R. split.
  - intros P. destruct (validate_verdict m) as [m' [H _]].
    assert (Hrule : ruleToCompiles m = Some "replacement expression missing in 'to'").
    { unfold ruleToCompiles. now rewrite R, P. }
    split.
    + apply rejected_iff. intros V. unfold verdict in V.
      apply firstError_None in V.
      repeat match goal with
             | V : Forall _ (_ :: _) |- _ => inversion V; subst; clear V
             end.
      congruence.
    + intros H1 H2. exists m'. rewrite H. unfold verdict.
      now rewrite H1, H2, Hrule.
  - intros pattern template P. split.
    + rewrite !validates_iff.
      assert (Hclean : occurs "," pattern = false).
      { unfold toParts in P. now apply cut_Some in P. }
      rewrite <- (withTo_same m) at 1.
      rewrite (verdict_withTo_same_pattern m (sync.To m)
                 (sync.RegexpPrefix ++ pattern ++ ",") pattern template EmptyString R
                 (isRegexp_prefixed _) P).
      * reflexivity.
      * unfold toParts. rewrite regexPart_prefixed. now apply cut_app.
    + intros m' H. apply validate_inv in H. destruct H as [V H].
      injection H as ->. unfold compiled. cbn [sync.toReplace sync.toFilter].
      rewrite R, P. split; [reflexivity|].
      unfold verdict in V. apply firstError_None in V.
      repeat match goal with
             | V : Forall _ (_ :: _) |- _ => inversion V; subst; clear V
             end.
      match goal with T : ruleToCompiles m = None |- _ =>
        unfold ruleToCompiles in T; rewrite R, P in T end.
      destruct (sync.CompileRegex pattern false) as [re|err]; [|discriminate].
      exists re. split; reflexivity.
Qed.

End RegexTo.

Section FilterAndMap.
Context {ext : sync.Collaborators}.

Lemma normalizePath_slash (p : string) :
  exists rest, sync.normalizePath p = String "/" rest.
Proof.
  unfold sync.normalizePath, strings.HasPrefix.
  destruct (String.prefix "/" p) eqn:E; [|now exists p].
  destruct p as [|c p]; cbn [String.prefix] in E; [discriminate|].
  destruct (Ascii.ascii_dec "/" c) as [<-|]; [|discriminate]. now exists p.
Qed.

(** Normalization only ever puts one slash in front. *)
Lemma normalizePath_spec (p : string) :
  (strings.HasPrefix p "/" = true /\ sync.normalizePath p = p) \/
  (strings.HasPrefix p "/" = false /\ sync.normalizePath p = String "/" p).
Proof.
  unfold sync.normalizePath. destruct (strings.HasPrefix p "/"); [left|right];
    split; reflexivity.
Qed.

Lemma isRegexp_normalizePath (p : string) :
  sync.isRegexp (sync.normalizePath p) = false.
Proof.
  destruct (normalizePath_slash p) as [rest ->].
  unfold sync.isRegexp, strings.HasPrefix, sync.RegexpPrefix.
  cbn [String.prefix].
  destruct (Ascii.ascii_dec "r" "/"); [discriminate|reflexivity].
Qed.

Lemma isRegexp_not_empty (s : string) : sync.isRegexp s = true -> s <> EmptyString.
Proof. intros H ->. discriminate. Qed.

Lemma compiled_isRegexpFrom (m : sync.Mapping) :
  sync.isRegexpFrom (compiled m) = sync.isRegexp (sync.From m).
Proof.
  unfold sync.isRegexpFrom, compiled. cbn [sync.From].
  destruct (sync.isRegexp (sync.From m)) eqn:E; [exact E|].
  apply isRegexp_normalizePath.
Qed.

Lemma compiled_isRegexpTo (m : sync.Mapping) :
  sync.isRegexpTo (compiled m) = sync.isRegexp (sync.To m).
Proof.
  unfold sync.isRegexpTo, compiled. cbn [sync.To].
  destruct (sync.isRegexp (sync.To m)) eqn:E; [exact E|].
  destruct (sync.To m =? EmptyString)%string; [exact E|apply isRegexp_normalizePath].
Qed.

Lemma compiled_To_empty (m : sync.Mapping) :
  sync.To (compiled m) = EmptyString <-> sync.To m = EmptyString.
Proof.
  unfold compiled. cbn [sync.To].
  destruct (sync.isRegexp (sync.To m)) eqn:E; [reflexivity|].
  destruct (String.eqb_spec (sync.To m) EmptyString) as [Ht|Ht]; [reflexivity|].
  destruct (normalizePath_slash (sync.To m)) as [rest ->].
  split; [discriminate|contradiction].
Qed.

(** The loop of [filterRepos] with a compiled pattern in place. *)
Lemma filter_loop (m : sync.Mapping) (re : sync.Regexp) :
  sync.fromFilter m = Some re ->
  forall (repos ret : list string),
    fold_left
      (fun acc r =>
         rbind acc (fun ret =>
         rbind (sync.deref (sync.fromFilter m)) (fun re =>
         if sync.MatchString re r
         then Ok (ret ++ [sync.normalizePath r])
         else Ok ret)))
      repos (Ok ret)
    = Ok (ret ++ map sync.normalizePath (filter (sync.MatchString re) repos)).
Proof.
  intros Hre repos. rewrite Hre. cbn [sync.deref rbind].
  induction repos as [|r repos IH]; intros ret;
    cbn [fold_left rbind filter map].
  - now rewrite app_nil_r.
  - destruct (sync.MatchString re r); rewrite IH; [|reflexivity].
    cbn [map]. now rewrite <- app_assoc.
Qed.

(** C1: on a mapping that validated, [mapPath] does not panic and follows
    the case analysis on the compiled [to]: a regex [to] gives the compiled
    (unanchored) pattern's replace-all with the template; a non-empty
    literal [to] gives [to ++ p] under a regex [from] and [to] itself
    under a literal [from]; an empty [to] gives [p].  The validated fields
    are in regex form exactly when the raw ones were, and [to] is empty
    exactly when the raw one was. *)
Theorem mapPath_validated (m m' : sync.Mapping) (p : string) :
  sync.validate (Some m) = (Some m', sync.Returned None) ->
  sync.isRegexpTo m' = sync.isRegexp (sync.To m) /\
  sync.isRegexpFrom m' = sync.isRegexp (sync.From m) /\
  (sync.To m' = EmptyString <-> sync.To m = EmptyString) /\
  if sync.isRegexpTo m' then
    exists (pattern template : string) (re : sync.Regexp),
      toParts (sync.To m') = Some (pattern, template) /\
      sync.CompileRegex pattern false = inl re /\
      sync.mapPath m' p = Ok (sync.ReplaceAllString re p template)
  else if (sync.To m' =? EmptyString)%string then
    sync.mapPath m' p = Ok p
  else
    sync.To m' = sync.normalizePath (sync.To m) /\
    if sync.isRegexpFrom m'
    then sync.mapPath m' p = Ok (sync.To m' ++ p)%string
    else sync.mapPath m' p = Ok (sync.To m').
Proof.
  intros H. apply validate_inv in H. destruct H as [V H]. injection H as ->.
  split; [apply compiled_isRegexpTo|]. split; [apply compiled_isRegexpFrom|].
  split; [apply compiled_To_empty|].
  unfold sync.mapPath. rewrite compiled_isRegexpTo.
  destruct (sync.isRegexp (sync.To m)) eqn:R.
  - unfold verdict in V. apply firstError_None in V.
    repeat match goal with
           | V : Forall _ (_ :: _) |- _ => inversion V; subst; clear V
           end.
    match goal with T : ruleToCompiles m = None |- _ =>
      unfold ruleToCompiles in T; rewrite R in T end.
    unfold compiled. cbn [sync.To sync.toFilter sync.toReplace]. rewrite R.
    destruct (toParts (sync.To m)) as [[pattern template]|]; [|discriminate].
    destruct (sync.CompileRegex pattern false) as [re|err] eqn:C; [|discriminate].
    exists pattern, template, re. repeat split. exact C.
  - destruct (sync.To (compiled m) =? EmptyString)%string eqn:E; cbn [negb]; [reflexivity|].
    split.
    + unfold compiled in *. cbn [sync.To] in *. rewrite R in *.
      destruct (sync.To m =? EmptyString)%string eqn:Eraw; [congruence|reflexivity].
    + destruct (sync.isRegexpFrom (compiled m)); reflexivity.
Qed.

(** C2: on a mapping that validated, [filterRepos] does not panic; under a
    regex [from] it returns, in input order, the repositories the compiled
    anchored pattern matches, each with a slash put in front only when it
    has none (so the empty list when none matches); under a literal [from]
    it returns its input. *)
Theorem filterRepos_validated (m m' : sync.Mapping) (repos : list string) :
  sync.validate (Some m) = (Some m', sync.Returned None) ->
  sync.isRegexpFrom m' = sync.isRegexp (sync.From m) /\
  (if sync.isRegexpFrom m' then
     exists re : sync.Regexp,
       sync.CompileRegex (regexPart (sync.From m')) true = inl re /\
       sync.filterRepos m' repos
       = Ok (map sync.normalizePath (filter (sync.MatchString re) repos)) /\
       (Forall (fun r => sync.MatchString re r = false) repos ->
        sync.filterRepos m' repos = Ok [])
   else sync.filterRepos m' repos = Ok repos) /\
  (forall r : string,
     (strings.HasPrefix r "/" = true /\ sync.normalizePath r = r) \/
     (strings.HasPrefix r "/" = false /\ sync.normalizePath r = String "/" r)).
Proof.
  intros H. apply validate_inv in H. destruct H as [V H]. injection H as ->.
  split; [apply compiled_isRegexpFrom|]. split; [|apply normalizePath_spec].
  unfold sync.filterRepos. rewrite compiled_isRegexpFrom.
  destruct (sync.isRegexp (sync.From m)) eqn:R; [|reflexivity].
  unfold verdict in V. apply firstError_None in V.
  repeat match goal with
         | V : Forall _ (_ :: _) |- _ => inversion V; subst; clear V
         end.
  match goal with T : ruleFromCompiles m = None |- _ =>
    unfold ruleFromCompiles in T; rewrite R in T end.
  destruct (sync.CompileRegex (regexPart (sync.From m)) true) as [re|err] eqn:C;
    [|discriminate].
  assert (Hf : sync.fromFilter (compiled m) = Some re).
  { unfold compiled. cbn [sync.fromFilter]. now rewrite R, C. }
  assert (Hfrom : sync.From (compiled m) = sync.From m).
  { unfold compiled. cbn [sync.From]. now rewrite R. }
  exists re. rewrite Hfrom. split; [exact C|].
  rewrite (filter_loop (compiled m) re Hf repos []). split; [reflexivity|].
  intros Hnone. f_equal. cbn [app].
  induction Hnone as [|r rs Hr _ IH]; [reflexivity|].
  simpl. now rewrite Hr.
Qed.

End FilterAndMap.

(** ** The theorems at work on the doubles *)

Lemma mapPath_validated_witness :
  sync.validate (Some doubles.renameRule)
  = (Some (compiled doubles.renameRule), sync.Returned None) /\
  exists (pattern template : string) (re : sync.Regexp (Collaborators := doubles.literalEngine)),
    toParts (sync.To (compiled doubles.renameRule)) = Some (pattern, template) /\
    sync.CompileRegex (Collaborators := doubles.literalEngine) pattern false = inl re /\
    sync.mapPath (compiled doubles.renameRule) "foo/baz"
    = Ok (sync.ReplaceAllString re "foo/baz" template).
Proof.
  assert (Hv : sync.validate (Some doubles.renameRule)
               = (Some (compiled doubles.renameRule), sync.Returned None))
    by (vm_compute; reflexivity).
  assert (Hi : sync.isRegexpTo (compiled doubles.renameRule) = true)
    by (vm_compute; reflexivity).
  split; [exact Hv|].
  destruct (mapPath_validated doubles.renameRule (compiled doubles.renameRule)
              "foo/baz" Hv) as [_ [_ [_ H]]].
  rewrite Hi in H. exact H.
Defined.

Lemma filterRepos_validated_witness :
  sync.validate (Some doubles.renameRule)
  = (Some (compiled doubles.renameRule), sync.Returned None) /\
  exists re : sync.Regexp (Collaborators := doubles.literalEngine),
    sync.CompileRegex (Collaborators := doubles.literalEngine)
      (regexPart (sync.From (compiled doubles.renameRule))) true = inl re /\
    sync.filterRepos (compiled doubles.renameRule) ["foo/a"; "bar/b"]
    = Ok (map sync.normalizePath (filter (sync.MatchString re) ["foo/a"; "bar/b"])).
Proof.
  assert (Hv : sync.validate (Some doubles.renameRule)
               = (Some (compiled doubles.renameRule), sync.Returned None))
    by (vm_compute; reflexivity).
  assert (Hi : sync.isRegexpFrom (compiled doubles.renameRule) = true)
    by (vm_compute; reflexivity).
  split; [exact Hv|].
  destruct (filterRepos_validated doubles.renameRule (compiled doubles.renameRule)
              ["foo/a"; "bar/b"] Hv) as [_ [H _]].
  rewrite Hi in H. destruct H as [re [C [H _]]]. exists re. split; assumption.
Defined.

Lemma validate_regex_to_witness :
  sync.isRegexp (sync.To doubles.renameRule) = true /\
  (validates doubles.renameRule <->
   validates (withTo "regex:foo," doubles.renameRule)).
Proof.
  assert (Hr : sync.isRegexp (sync.To doubles.renameRule) = true)
    by (vm_compute; reflexivity).
  assert (Hp : toParts (sync.To doubles.renameRule) = Some ("foo", "bar"))
    by (vm_compute; reflexivity).
  split; [exact Hr|].
  destruct (validate_regex_to doubles.renameRule Hr) as [_ H].
  destruct (H "foo" "bar" Hp) as [Hiff _]. exact Hiff.
Defined.

(** C3, as stated, fails: a regex [to] ending in its comma, so with an
    empty template, validates. *)
Lemma validate_accepts_empty_template :
  ~ (forall m : sync.Mapping (ext := doubles.literalEngine),
       sync.isRegexp (sync.To m) = true ->
       (forall pattern template : string,
          toParts (sync.To m) = Some (pattern, template) ->
          template = EmptyString) ->
       rejected m).
Proof.
  intros H.
  assert (Hr : sync.isRegexp (sync.To doubles.emptyTemplateRule) = true)
    by (vm_compute; reflexivity).
  destruct (H doubles.emptyTemplateRule Hr) as [m' [err E]].
  - intros pattern template P. vm_compute in P. now injection P as _ <-.
  - vm_compute in E. discriminate.
Qed.

Lemma hasSince_validated_witness :
  sync.validate (Some doubles.negativeSinceRule)
  = (Some (compiled doubles.negativeSinceRule), sync.Returned None) /\
  sync.ParseDuration (Collaborators := doubles.literalEngine) "-1h"
  = inl (sync.sinceDuration (compiled doubles.negativeSinceRule)) /\
  (sync.hasSince (compiled doubles.negativeSinceRule) = true <->
   0 < sync.sinceDuration (compiled doubles.negativeSinceRule)).
Proof.
  assert (Hv : sync.validate (Some doubles.negativeSinceRule)
               = (Some (compiled doubles.negativeSinceRule), sync.Returned None))
    by (vm_compute; reflexivity).
  split; [exact Hv|].
  destruct (hasSince_validated doubles.negativeSinceRule
              (compiled doubles.negativeSinceRule) Hv) as [Hiff [Hparse _]].
  split; [apply Hparse; discriminate|exact Hiff].
Defined.

Example empty_template_validates :
  sync.validate (Some doubles.emptyTemplateRule)
  = (Some (compiled doubles.emptyTemplateRule), sync.Returned None) /\
  sync.toReplace (compiled doubles.emptyTemplateRule) = EmptyString /\
  sync.mapPath (compiled doubles.emptyTemplateRule) "foo/baz" = Ok "/baz".
Proof. vm_compute. repeat split. Qed.

Example no_comma_rejected :
  snd (sync.validate (Some doubles.noCommaRule))
  = sync.Returned (Some "replacement expression missing in 'to'").
Proof. vm_compute. reflexivity. Qed.

Example not_a_bool_validates :
  sync.validate (Some doubles.notABoolRule)
  = (Some (compiled doubles.notABoolRule), sync.Returned None) /\
  sync.onlyActive (compiled doubles.notABoolRule) = false.
Proof. vm_compute. split; reflexivity. Qed.

Example not_a_duration_rejected :
  snd (sync.validate (Some doubles.notADurationRule))
  = sync.Returned (Some "time: invalid duration not-a-duration").
Proof. vm_compute. reflexivity. Qed.

Example negative_since_is_no_filter :
  sync.sinceDuration (compiled doubles.negativeSinceRule) = -3600000000000 /\
  sync.hasSince (compiled doubles.negativeSinceRule) = false.
Proof. vm_compute. split; reflexivity. Qed.

Example empty_from_rejected :
  snd (sync.validate
         (Some (doubles.rawMapping EmptyString "x" EmptyString EmptyString)))
  = sync.Returned (Some "mapping without 'From' path").
Proof. vm_compute. reflexivity. Qed.

Example literal_from_is_normalized :
  sync.From (compiled doubles.plainRule) = "/myimage" /\
  sync.filterRepos (compiled doubles.plainRule) ["myimage"; "other"]
  = Ok ["myimage"; "other"] /\
  sync.mapPath (compiled doubles.plainRule) "myimage" = Ok "myimage".
Proof. vm_compute. repeat split. Qed.

Example prefix_rule_concatenates :
  sync.validate (Some doubles.prefixRule)
  = (Some (compiled doubles.prefixRule), sync.Returned None) /\
  sync.mapPath (compiled doubles.prefixRule) "/anything" = Ok "/prefix/anything".
Proof. vm_compute. split; reflexivity. Qed.

Example unvalidated_regex_rule_panics :
  sync.filterRepos doubles.renameRule ["foo/a"]
  = Panic "invalid memory address or nil pointer dereference".
Proof. vm_compute. reflexivity. Qed.

Example normalizePath_keeps_slashes :
  sync.normalizePath "a//b/" = "/a//b/" /\ sync.normalizePath "//a/" = "//a/".
Proof. vm_compute. split; reflexivity. Qed.

Example rename_rule_filters_and_maps :
  sync.filterRepos (compiled doubles.renameRule) ["foo/a"; "bar/b"] = Ok ["/foo/a"] /\
  sync.filterRepos (compiled doubles.renameRule) ["bar/b"] = Ok [] /\
  sync.mapPath (compiled doubles.renameRule) "foo/baz" = Ok "bar/baz".
Proof. vm_compute. repeat split. Qed.

(** ** Further facts: the registry identifier *)
Section HostRoundTrip.

Lemma Split_clean (s : string) (sep : ascii) :
  occurs sep s = false -> strings.Split s sep = [s].
Proof.
  induction s as [|c s IH]; [reflexivity|].
  cbn [occurs strings.Split]. intros H. apply orb_false_iff in H.
  destruct H as [Hc Hs]. rewrite Hc, (IH Hs). reflexivity.
Qed.

Lemma Split_app_clean (a b : string) (sep : ascii) :
  occurs sep a = false ->
  strings.Split (a ++ String sep b) sep = a :: strings.Split b sep.
Proof.
  induction a as [|c a IH]; intros H.
  - cbn [String.append strings.Split]. now rewrite Ascii.eqb_refl.
  - cbn [occurs] in H. apply orb_false_iff in H. destruct H as [Hc Ha].
    cbn [String.append strings.Split]. rewrite Hc, (IH Ha). reflexivity.
Qed.

Lemma Split_managedHost (account region suffix : string) :
  occurs "." account = false ->
  occurs "." region = false ->
  strings.Split (managedHost account region (String "." suffix)) "."
  = account :: "dkr" :: "ecr" :: region :: strings.Split suffix ".".
Proof.
  intros Ha Hr. unfold managedHost.
  change (account ++ ".dkr.ecr." ++ region ++ String "." suffix)%string
    with (account ++ String "." ("dkr" ++ String "." ("ecr" ++
            String "." (region ++ String "." suffix))))%string.
  rewrite (Split_app_clean account _ "." Ha).
  rewrite (Split_app_clean "dkr" _ "." eq_refl).
  rewrite (Split_app_clean "ecr" _ "." eq_refl).
  rewrite (Split_app_clean region _ "." Hr).
  reflexivity.
Qed.

(** X1: a host name built as account, ".dkr.ecr.", region and
    ".amazonaws.com" or ".amazonaws.com.cn" is classified as managed, and
    [IsECR] gives back that region and account, as long as neither holds a
    dot; both may be empty. *)
Theorem IsECR_recognizes (account region : string) :
  occurs "." account = false ->
  occurs "." region = false ->
  registry.IsECR (managedHost account region ".amazonaws.com")
  = Ok (true, region, account) /\
  registry.IsECR (managedHost account region ".amazonaws.com.cn")
  = Ok (true, region, account).
Proof.
  intros Ha Hr. split.
  - pose proof (IsECR_value (managedHost account region ".amazonaws.com")) as E.
    cbv zeta in E. rewrite (Split_managedHost account region _ Ha Hr) in E.
    exact E.
  - pose proof (IsECR_value (managedHost account region ".amazonaws.com.cn")) as E.
    cbv zeta in E. rewrite (Split_managedHost account region _ Ha Hr) in E.
    exact E.
Qed.

Lemma length_6 {A : Type} (xs : list A) :
  List.length xs = 6%nat ->
  exists a b c d e f, xs = [a; b; c; d; e; f].
Proof.
  destruct xs as [|a [|b [|c [|d [|e [|f [|g xs]]]]]]]; try discriminate.
  intros _. now exists a, b, c, d, e, f.
Qed.

Lemma length_7 {A : Type} (xs : list A) :
  List.length xs = 7%nat ->
  exists a b c d e f g, xs = [a; b; c; d; e; f; g].
Proof.
  destruct xs as [|a [|b [|c [|d [|e [|f [|g [|h xs]]]]]]]]; try discriminate.
  intros _. now exists a, b, c, d, e, f, g.
Qed.

(** X2: when [IsECR] classifies a host name as managed, the host name is
    the account, ".dkr.ecr.", the region and ".amazonaws.com" or
    ".amazonaws.com.cn", and neither the region nor the account it returns
    holds a dot. *)
Theorem IsECR_host_shape (host region account : string) :
  registry.IsECR host = Ok (true, region, account) ->
  (host = managedHost account region ".amazonaws.com" \/
   host = managedHost account region ".amazonaws.com.cn") /\
  occurs "." region = false /\
  occurs "." account = false.
Proof.
  intros H. pose proof (IsECR_value host) as E. cbv zeta in E.
  rewrite E in H. clear E.
  pose proof (Join_Split host ".") as J.
  pose proof (Split_pieces_clean host ".") as C.
  destruct (managedShapeb (strings.Split host ".")) eqn:B; [|discriminate].
  injection H as <- <-.
  apply managedShapeb_spec in B.
  destruct B as [[L|L] [H1 [H2 [H4 [H5 H6]]]]].
  - destruct (length_6 _ L) as [a [b [c [d [e [f U]]]]]].
    rewrite U in *. rewrite <- J. unfold component in *. cbn [nth] in *.
    subst b c e f.
    inversion C as [|? ? Ca C1]; subst. inversion C1 as [|? ? _ C2]; subst.
    inversion C2 as [|? ? _ C3]; subst. inversion C3 as [|? ? Cd _]; subst.
    split; [left; reflexivity|]. split; assumption.
  - destruct (length_7 _ L) as [a [b [c [d [e [f [g U]]]]]]].
    rewrite U in *. rewrite <- J. unfold component in *. cbn [nth] in *.
    specialize (H6 eq_refl). subst b c e f g.
    inversion C as [|? ? Ca C1]; subst. inversion C1 as [|? ? _ C2]; subst.
    inversion C2 as [|? ? _ C3]; subst. inversion C3 as [|? ? Cd _]; subst.
    split; [right; reflexivity|]. split; assumption.
Qed.

End HostRoundTrip.

Lemma IsECR_recognizes_witness :
  registry.IsECR (managedHost "123456789012" "eu-west-1" ".amazonaws.com")
  = Ok (true, "eu-west-1", "123456789012") /\
  registry.IsECR (managedHost "123456789012" "eu-west-1" ".amazonaws.com.cn")
  = Ok (true, "eu-west-1", "123456789012").
Proof.
  apply (IsECR_recognizes "123456789012" "eu-west-1"); vm_compute; reflexivity.
Defined.

Lemma IsECR_host_shape_witness :
  ("123456789012.dkr.ecr.cn-north-1.amazonaws.com.cn"
   = managedHost "123456789012" "cn-north-1" ".amazonaws.com" \/
   "123456789012.dkr.ecr.cn-north-1.amazonaws.com.cn"
   = managedHost "123456789012" "cn-north-1" ".amazonaws.com.cn") /\
  occurs "." "cn-north-1" = false /\
  occurs "." "123456789012" = false.
Proof.
  apply (IsECR_host_shape "123456789012.dkr.ecr.cn-north-1.amazonaws.com.cn").
  vm_compute. reflexivity.
Defined.

(** ** Further facts: the list source *)
Section ListingMore.
Context {aws : registry.AWS}.

Lemma append_not_empty (s : registry.slice) (x : string) :
  registry.append s x <> Some [].
Proof.
  destruct s as [xs|]; cbn [registry.append]; [|discriminate].
  destruct xs; discriminate.
Qed.

Lemma collect_not_empty (maxItems : Z) (page : registry.DescribeRepositoriesOutput)
    (lastPage : bool) (ret : registry.slice) :
  ret <> Some [] ->
  fst (registry.collect maxItems page lastPage ret) <> Some [].
Proof.
  unfold registry.collect. cbn [fst].
  generalize (registry.Repositories page) as rs. intros rs. revert ret.
  induction rs as [|r rs IH]; intros ret H; cbn [fold_left]; [exact H|].
  apply IH. apply append_not_empty.
Qed.

Lemma driver_not_empty (maxItems : Z) (b : registry.backend) :
  forall acc, acc <> Some [] ->
    fst (registry.DescribeRepositoriesPages b (registry.collect maxItems) acc)
    <> Some [].
Proof.
  induction b as [err|page|page rest IH]; intros acc H;
    cbn [registry.DescribeRepositoriesPages].
  - exact H.
  - now apply collect_not_empty.
  - pose proof (collect_not_empty maxItems page false acc H) as Hc.
    destruct (registry.collect maxItems page false acc) as [st' more].
    cbn [fst] in Hc. destruct more; [now apply IH|exact Hc].
Qed.

(** X3: the slice [Retrieve] returns is never an empty non-nil slice: a
    registry without repositories is listed as nil, with or without an
    error. *)
Theorem Retrieve_nil_when_empty (e : registry.ecr) (maxItems : Z) :
  fst (registry.Retrieve e maxItems) <> Some [] /\
  (elems (fst (registry.Retrieve e maxItems)) = [] <->
   fst (registry.Retrieve e maxItems) = None).
Proof.
  assert (H : fst (registry.Retrieve e maxItems) <> Some []).
  { unfold registry.Retrieve. destruct (registry.getService e) as [svc|err];
      [|discriminate].
    pose proof (driver_not_empty maxItems
                  (registry.describeRepositories (registry.sess svc)
                     (registry.cfgRegion svc)
                     {| registry.RegistryId := registry.account e;
                        registry.MaxResults := 100 |})
                  None ltac:(discriminate)) as Hd.
    destruct (registry.DescribeRepositoriesPages _ _ _) as [r [x|]];
      [discriminate|exact Hd]. }
  split; [exact H|].
  destruct (fst (registry.Retrieve e maxItems)) as [xs|]; cbn [elems].
  - split; [intros ->; now contradiction H|discriminate].
  - split; reflexivity.
Qed.

Lemma flat_map_snoc {A B : Type} (f : A -> list B) (xs : list A) (x : A) :
  flat_map f (xs ++ [x]) = flat_map f xs ++ f x.
Proof. rewrite flat_map_app. cbn [flat_map]. now rewrite app_nil_r. Qed.

(** A run over pages that reach the bound only with the last of them takes
    exactly these pages, whatever the backend holds after them. *)
Lemma driver_stops_at_bound (maxItems : Z)
    (init : list registry.DescribeRepositoriesOutput)
    (last : registry.DescribeRepositoriesOutput) (rest : registry.backend) :
  0 < maxItems ->
  forall acc,
    len (elems acc ++ flat_map names init) < maxItems ->
    maxItems <= len (elems acc ++ flat_map names (init ++ [last])) ->
    exists ret,
      registry.DescribeRepositoriesPages (followedBy (init ++ [last]) rest)
        (registry.collect maxItems) acc = (ret, None) /\
      elems ret = elems acc ++ flat_map names (init ++ [last]).
Proof.
  intros Hpos. induction init as [|page init IH]; intros acc Hlt Hge;
    cbn [app followedBy fold_right registry.DescribeRepositoriesPages flat_map] in *.
  - pose proof (collect_elems maxItems last false acc) as He.
    pose proof (collect_more maxItems last false acc) as Hm.
    destruct (registry.collect maxItems last false acc) as [st' more].
    cbn [fst snd] in He, Hm. rewrite app_nil_r in Hge.
    destruct more.
    + destruct Hm as [Hm _]. destruct (Hm eq_refl); lia.
    + exists st'. split; [reflexivity|]. now rewrite app_nil_r.
  - pose proof (collect_elems maxItems page false acc) as He.
    pose proof (collect_more maxItems page false acc) as Hm.
    destruct (registry.collect maxItems page false acc) as [st' more].
    cbn [fst snd] in He, Hm.
    rewrite app_assoc in Hlt, Hge. rewrite <- He in Hlt, Hge.
    assert (more = true) as ->.
    { apply Hm. right. rewrite <- He. rewrite len_app in Hlt.
      unfold len in *. lia. }
    destruct (IH st' Hlt Hge) as [ret [Hrun Hret]].
    exists ret. split; [exact Hrun|]. rewrite Hret, He, <- app_assoc. reflexivity.
Qed.

(** X4: with a bound, [Retrieve] requests nothing beyond the page that
    reaches the bound: if the pages served first stay below [maxItems]
    without their last one and reach it with it, the result is exactly
    their names, whatever the backend would answer afterwards, a failure
    included. *)
Theorem Retrieve_stops_at_bound (e : registry.ecr) (maxItems : Z)
    (s : registry.Session)
    (init : list registry.DescribeRepositoriesOutput)
    (last : registry.DescribeRepositoriesOutput) (rest : registry.backend) :
  registry.NewSession = inl s ->
  registry.describeRepositories s (registry.region e) (listingInput e)
  = followedBy (init ++ [last]) rest ->
  0 < maxItems ->
  len (flat_map names init) < maxItems ->
  maxItems <= len (flat_map names (init ++ [last])) ->
  exists ret,
    registry.Retrieve e maxItems = (ret, None) /\
    elems ret = flat_map names (init ++ [last]).
Proof.
  intros Hs Hb Hpos Hlt Hge.
  rewrite (Retrieve_with_session e maxItems s Hs), Hb.
  destruct (driver_stops_at_bound maxItems init last rest Hpos None Hlt Hge)
    as [ret [Hrun Hret]].
  rewrite Hrun. exists ret. split; [reflexivity|exact Hret].
Qed.

(** A successful run leaves what was accumulated before it in front. *)
Lemma driver_extends (maxItems : Z) (b : registry.backend)
    (acc ret : registry.slice) :
  registry.DescribeRepositoriesPages b (registry.collect maxItems) acc = (ret, None) ->
  initialSegment (elems acc) (elems ret).
Proof.
  intros H. destruct (driver_success maxItems b acc ret H) as [k [_ [Hret _]]].
  now exists (namesUpTo k b).
Qed.

Lemma collect_fst_bound (n1 n2 : Z) (page : registry.DescribeRepositoriesOutput)
    (lastPage : bool) (ret : registry.slice) :
  fst (registry.collect n1 page lastPage ret)
  = fst (registry.collect n2 page lastPage ret).
Proof. reflexivity. Qed.

Lemma driver_monotone (narrow wide : Z) (b : registry.backend) :
  atLeastAsWide narrow wide ->
  forall acc r1 r2,
    registry.DescribeRepositoriesPages b (registry.collect narrow) acc = (r1, None) ->
    registry.DescribeRepositoriesPages b (registry.collect wide) acc = (r2, None) ->
    initialSegment (elems r1) (elems r2).
Proof.
  intros Hw. induction b as [err|page|page rest IH]; intros acc r1 r2 H1 H2;
    cbn [registry.DescribeRepositoriesPages] in H1, H2.
  - discriminate.
  - pose proof (collect_fst_bound narrow wide page true acc) as Hs.
    destruct (registry.collect narrow page true acc) as [s1 m1].
    destruct (registry.collect wide page true acc) as [s2 m2].
    cbn [fst] in *. injection H1 as <-. injection H2 as <-. subst s2.
    exists []. now rewrite app_nil_r.
  - pose proof (collect_fst_bound narrow wide page false acc) as Hs.
    pose proof (collect_elems narrow page false acc) as E1.
    pose proof (collect_more narrow page false acc) as M1.
    pose proof (collect_more wide page false acc) as M2.
    destruct (registry.collect narrow page false acc) as [s1 m1].
    destruct (registry.collect wide page false acc) as [s2 m2].
    cbn [fst snd] in *. subst s2. destruct m1.
    + assert (m2 = true) as ->.
      { apply M2. destruct M1 as [M1 _]. unfold atLeastAsWide in Hw.
        destruct (M1 eq_refl); lia. }
      exact (IH _ _ _ H1 H2).
    + injection H1 as <-. destruct m2.
      * exact (driver_extends wide rest s1 r2 H2).
      * injection H2 as <-. exists []. now rewrite app_nil_r.
Qed.

(** X5: widening the bound only adds to the result: when [Retrieve]
    succeeds with a bound and with a wider one (a larger bound, or none),
    the names returned under the first are an initial segment of those
    returned under the second. *)
Theorem Retrieve_monotone (e : registry.ecr) (narrow wide : Z)
    (r1 r2 : registry.slice) :
  atLeastAsWide narrow wide ->
  registry.Retrieve e narrow = (r1, None) ->
  registry.Retrieve e wide = (r2, None) ->
  initialSegment (elems r1) (elems r2).
Proof.
  intros Hw H1 H2. destruct registry.NewSession as [s|err] eqn:Hs.
  2:{ unfold registry.Retrieve, registry.getService in H1. rewrite Hs in H1.
      discriminate. }
  rewrite (Retrieve_with_session e narrow s Hs) in H1.
  rewrite (Retrieve_with_session e wide s Hs) in H2.
  destruct (registry.DescribeRepositoriesPages _ (registry.collect narrow) None)
    as [x1 [e1|]] eqn:D1; [discriminate|].
  destruct (registry.DescribeRepositoriesPages _ (registry.collect wide) None)
    as [x2 [e2|]] eqn:D2; [discriminate|].
  injection H1 as <-. injection H2 as <-.
  exact (driver_monotone narrow wide _ Hw None x1 x2 D1 D2).
Qed.

End ListingMore.

Section PingFacts.
Context {aws : registry.AWS} {probe : registry.Probe}.


End PingFacts.

Lemma Retrieve_stops_at_bound_witness :
  exists ret,
    registry.Retrieve (aws := doubles.secondPageFails) doubles.someECR 100
    = (ret, None) /\
    elems ret = flat_map names ([] ++ [doubles.pageOf 0 100]).
Proof.
  apply (Retrieve_stops_at_bound (aws := doubles.secondPageFails)
           doubles.someECR 100 tt [] (doubles.pageOf 0 100)
           (registry.Fail "RequestError: send request failed")).
  - reflexivity.
  - reflexivity.
  - lia.
  - vm_compute. reflexivity.
  - vm_compute. discriminate.
Defined.

Lemma Retrieve_monotone_witness :
  initialSegment (names (doubles.pageOf 0 100)) (names (doubles.pageOf 0 150)).
Proof.
  apply (Retrieve_monotone (aws := doubles.twoPages) doubles.someECR 50 101
           (Some (names (doubles.pageOf 0 100)))
           (Some (names (doubles.pageOf 0 150)))).
  - right. lia.
  - vm_compute. reflexivity.
  - vm_compute. reflexivity.
Defined.

(** ** Further facts: validation *)
Section ValidationMore.
Context {ext : sync.Collaborators}.

Lemma verdict_rules (m : sync.Mapping) :
  verdict m = None ->
  ruleFromPresent m = None /\ ruleFromCompiles m = None /\
  ruleToCompiles m = None /\ ruleTags m = None /\ ruleSince m = None.
Proof.
  unfold verdict. intros V. apply firstError_None in V.
  repeat match goal with
         | V : Forall _ (_ :: _) |- _ => inversion V; subst; clear V
         end.
  repeat split; assumption.
Qed.

Lemma normalizePath_absolute (p : string) : absolute (sync.normalizePath p) = true.
Proof.
  unfold absolute, sync.normalizePath.
  destruct (strings.HasPrefix p "/") eqn:E; [exact E|].
  unfold strings.HasPrefix. cbn [String.append String.prefix].
  destruct (Ascii.ascii_dec "/" "/") as [_|N]; [|now contradiction N].
  destruct p; reflexivity.
Qed.

Lemma normalizePath_idem (p : string) :
  sync.normalizePath (sync.normalizePath p) = sync.normalizePath p.
Proof.
  pose proof (normalizePath_absolute p) as A. unfold absolute in A.
  unfold sync.normalizePath at 1. now rewrite A.
Qed.

Lemma normalizePath_not_empty (p : string) :
  (sync.normalizePath p =? EmptyString)%string = false.
Proof. destruct (normalizePath_slash p) as [rest ->]. reflexivity. Qed.

(** X7: on a non-nil receiver [validate] never panics, and the error it
    returns is the one of the first rule the raw fields violate, in the
    order source path present, [from] compiles, [to] has its comma and
    compiles, tags build, [since] parses; it returns nil when none is
    violated, and then the receiver holds the compiled mapping. *)
Theorem validate_first_violation (m : sync.Mapping) :
  exists m' : sync.Mapping,
    sync.validate (Some m)
    = (Some m',
       sync.Returned
         (firstError [ruleFromPresent m; ruleFromCompiles m; ruleToCompiles m;
                      ruleTags m; ruleSince m])) /\
    (firstError [ruleFromPresent m; ruleFromCompiles m; ruleToCompiles m;
                 ruleTags m; ruleSince m] = None ->
     m' = compiled m).
Proof. exact (validate_verdict m). Qed.

Lemma compiled_idem (m : sync.Mapping) : compiled (compiled m) = compiled m.
Proof.
  unfold compiled.
  cbn [sync.From sync.To sync.Tags sync.Platform sync.OnlyActive sync.Since
       sync.fromFilter sync.toFilter sync.onlyActiveFlag sync.sinceDuration
       sync.toReplace sync.tagSet].
  destruct (sync.isRegexp (sync.From m)) eqn:RF;
    [rewrite RF|rewrite isRegexp_normalizePath, normalizePath_idem];
    (destruct (sync.isRegexp (sync.To m)) eqn:RT;
     [rewrite RT
     |destruct (sync.To m =? EmptyString)%string eqn:ET;
      [rewrite RT, ET
      |rewrite isRegexp_normalizePath, normalizePath_not_empty, normalizePath_idem]]);
    destruct (sync.NewTagSet (sync.Tags m));
    destruct (sync.Since m =? EmptyString)%string;
    try destruct (toParts (sync.To m)) as [[pattern template]|];
    reflexivity.
Qed.

Lemma compiled_verdict (m : sync.Mapping) :
  verdict m = None -> verdict (compiled m) = None.
Proof.
  intros V. destruct (verdict_rules m V) as [R1 [R2 [R4 [R6 R8]]]].
  unfold verdict.
  assert (Q1 : ruleFromPresent (compiled m) = None).
  { unfold ruleFromPresent in *. unfold compiled. cbn [sync.From].
    destruct (sync.isRegexp (sync.From m)); [exact R1|].
    now rewrite normalizePath_not_empty. }
  assert (Q2 : ruleFromCompiles (compiled m) = None).
  { unfold ruleFromCompiles in *. unfold compiled. cbn [sync.From].
    destruct (sync.isRegexp (sync.From m)) eqn:RF; [now rewrite RF|].
    now rewrite isRegexp_normalizePath. }
  assert (Q4 : ruleToCompiles (compiled m) = None).
  { unfold ruleToCompiles in *. unfold compiled. cbn [sync.To].
    destruct (sync.isRegexp (sync.To m)) eqn:RT; [now rewrite RT|].
    destruct (sync.To m =? EmptyString)%string; [now rewrite RT|].
    now rewrite isRegexp_normalizePath. }
  change (ruleTags (compiled m)) with (ruleTags m).
  change (ruleSince (compiled m)) with (ruleSince m).
  now rewrite Q1, Q2, Q4, R6, R8.
Qed.

(** X8: validation is idempotent: a mapping that [validate] has accepted is
    accepted again and left as it is by a second call. *)
Theorem validate_idempotent (m m' : sync.Mapping) :
  sync.validate (Some m) = (Some m', sync.Returned None) ->
  sync.validate (Some m') = (Some m', sync.Returned None).
Proof.
  intros H. apply validate_inv in H. destruct H as [V H]. injection H as ->.
  rewrite (validate_accepts (compiled m) (compiled_verdict m V)).
  now rewrite compiled_idem.
Qed.

(** X9: what holds of every mapping [validate] has accepted: [from] is in
    regex form or begins with a slash; [to] is empty, in regex form or
    begins with a slash; a compiled pattern is in place for each field in
    regex form, and a tag selector; the raw tags, platform, [only_active]
    and [since] are as they were. *)
Theorem validated_wellformed (m m' : sync.Mapping) :
  sync.validate (Some m) = (Some m', sync.Returned None) ->
  (sync.isRegexpFrom m' = true \/ absolute (sync.From m') = true) /\
  (sync.To m' = EmptyString \/ sync.isRegexpTo m' = true \/
   absolute (sync.To m') = true) /\
  (sync.isRegexpFrom m' = true -> sync.fromFilter m' <> None) /\
  (sync.isRegexpTo m' = true -> sync.toFilter m' <> None) /\
  sync.tagSet m' <> None /\
  sync.Tags m' = sync.Tags m /\
  sync.Platform m' = sync.Platform m /\
  sync.OnlyActive m' = sync.OnlyActive m /\
  sync.Since m' = sync.Since m.
Proof.
  intros H. apply validate_inv in H. destruct H as [V H]. injection H as ->.
  destruct (verdict_rules m V) as [R1 [R2 [R4 [R6 R8]]]].
  split; [|split; [|split; [|split; [|split]]]].
  - unfold sync.isRegexpFrom, compiled. cbn [sync.From].
    destruct (sync.isRegexp (sync.From m)) eqn:RF; [now left|right].
    apply normalizePath_absolute.
  - unfold sync.isRegexpTo, compiled. cbn [sync.To].
    destruct (sync.isRegexp (sync.To m)) eqn:RT; [right; now left|].
    destruct (String.eqb_spec (sync.To m) EmptyString) as [E|E]; [now left|].
    right. right. apply normalizePath_absolute.
  - rewrite compiled_isRegexpFrom. intros RF.
    unfold ruleFromCompiles in R2. unfold compiled. cbn [sync.fromFilter].
    rewrite RF in *.
    destruct (sync.CompileRegex (regexPart (sync.From m)) true); discriminate.
  - rewrite compiled_isRegexpTo. intros RT.
    unfold ruleToCompiles in R4. unfold compiled. cbn [sync.toFilter].
    rewrite RT in *.
    destruct (toParts (sync.To m)) as [[pattern template]|]; [|discriminate].
    destruct (sync.CompileRegex pattern false); discriminate.
  - unfold ruleTags in R6. unfold compiled. cbn [sync.tagSet].
    destruct (sync.NewTagSet (sync.Tags m)); discriminate.
  - repeat split.
Qed.

Lemma ParseBool_true (s : string) :
  fst (strconv.ParseBool s) = true <-> In s trueSpellings.
Proof.
  unfold strconv.ParseBool, trueSpellings. cbn [In].
  destruct ((s =? "1") || (s =? "t") || (s =? "T") || (s =? "true")
            || (s =? "TRUE") || (s =? "True"))%string%bool eqn:E.
  - split; [intros _|reflexivity].
    rewrite !orb_true_iff, !String.eqb_eq in E.
    intuition (subst; auto).
  - split.
    + intros H. cbn iota in H. destruct (_ || _)%bool in H; cbn [fst] in H; discriminate H.
    + intros H. exfalso.
      rewrite !orb_false_iff in E.
      destruct E as [[[[[E1 E2] E3] E4] E5] E6].
      destruct H as [<-|[<-|[<-|[<-|[<-|[<-|[]]]]]]]; discriminate.
Qed.

(** X10: after a call of [validate] that returned no error, [onlyActive()]
    is true exactly when the raw [only_active] is one of the six spellings
    "1", "t", "T", "true", "TRUE", "True"; every other value, the empty one
    and unparseable ones included, gives false, whatever the flag held
    before the call. *)
Theorem onlyActive_spellings (m m' : sync.Mapping) :
  sync.validate (Some m) = (Some m', sync.Returned None) ->
  (sync.onlyActive m' = true <-> In (sync.OnlyActive m) trueSpellings).
Proof.
  intros H. apply validate_inv in H. destruct H as [_ H]. injection H as ->.
  unfold sync.onlyActive, compiled. cbn [sync.onlyActiveFlag].
  destruct (String.eqb_spec (sync.OnlyActive m) EmptyString) as [E|E].
  - rewrite E. split; [discriminate|]. unfold trueSpellings. cbn [In].
    intros H. repeat (destruct H as [H|H]; [discriminate|]). contradiction.
  - apply ParseBool_true.
Qed.

End ValidationMore.

Section ValidationFrame.
Context {ext : sync.Collaborators}.

Ltac crunch :=
  cbn -[sliceFrom String.length strings.SplitN sync.normalizePath String.eqb
        String.append regexPart sync.isRegexp strconv.ParseBool].

Ltac framed :=
  solve [repeat split; intros; try discriminate; auto].

(** What the body of [validate] leaves in the receiver on every path, the
    failing ones included. *)
Lemma validateBody_frame (m : sync.Mapping) :
  let m' := fst (sync.validateBody m) in
  sync.Tags m' = sync.Tags m /\
  sync.Platform m' = sync.Platform m /\
  sync.OnlyActive m' = sync.OnlyActive m /\
  sync.Since m' = sync.Since m /\
  (sync.From m' = sync.From m \/ sync.From m' = sync.normalizePath (sync.From m)) /\
  (sync.To m' = sync.To m \/ sync.To m' = sync.normalizePath (sync.To m)) /\
  (ruleFromPresent m = None -> ruleFromCompiles m = None ->
   sync.From m' = sync.From (compiled m) /\
   sync.fromFilter m' = sync.fromFilter (compiled m)).
Proof.
  unfold sync.validateBody, ruleFromPresent, ruleFromCompiles, compiled,
    sync.seq, sync.read, sync.assign, sync.eval, sync.return_, sync.skip,
    sync.isRegexpFrom, sync.isRegexpTo.
  destruct (sync.From m =? EmptyString)%string eqn:Efrom; crunch; [framed|].
  destruct (sync.isRegexp (sync.From m)) eqn:EiF; crunch.
  1: rewrite (sliceFrom_regexPart _ EiF); crunch;
     destruct (sync.CompileRegex (regexPart (sync.From m)) true) eqn:EcF; crunch;
     [|framed].
  all: destruct (sync.isRegexp (sync.To m)) eqn:EiT; crunch.
  1,3: rewrite (sliceFrom_regexPart _ EiT); crunch; rewrite SplitN_2;
       destruct (strings.cut "," (regexPart (sync.To m))) as [[pattern template]|];
       crunch; [|framed];
       destruct (sync.CompileRegex pattern false) eqn:EcT; crunch;
       [|framed].
  3,4: destruct (sync.To m =? EmptyString)%string eqn:Eto; crunch.
  all: destruct (sync.NewTagSet (sync.Tags m)) eqn:Etags; crunch;
       [|framed].
  all: destruct (sync.OnlyActive m =? EmptyString)%string eqn:Eactive; crunch.
  all: destruct (sync.Since m =? EmptyString)%string eqn:Esince; crunch;
       [framed|].
  all: destruct (sync.ParseDuration (sync.Since m)) eqn:Edur; crunch; framed.
Qed.

(** X11: whatever [validate] returns, it leaves the raw tags, platform,
    [only_active] and [since] of its receiver alone, and [from] and [to]
    either alone or with a slash put in front.  It does not undo its work
    when it fails: once the [from] rules have passed, [from] stays
    normalized and its pattern compiled also when a later rule fails. *)
Theorem validate_frame (m : sync.Mapping) (r : option sync.Mapping)
    (o : sync.outcome) :
  sync.validate (Some m) = (r, o) ->
  exists m' : sync.Mapping,
    r = Some m' /\
    sync.Tags m' = sync.Tags m /\
    sync.Platform m' = sync.Platform m /\
    sync.OnlyActive m' = sync.OnlyActive m /\
    sync.Since m' = sync.Since m /\
    (sync.From m' = sync.From m \/ sync.From m' = sync.normalizePath (sync.From m)) /\
    (sync.To m' = sync.To m \/ sync.To m' = sync.normalizePath (sync.To m)) /\
    (ruleFromPresent m = None -> ruleFromCompiles m = None ->
     sync.From m' = sync.From (compiled m) /\
     sync.fromFilter m' = sync.fromFilter (compiled m)).
Proof.
  intros H. pose proof (validateBody_frame m) as F. cbv zeta in F.
  unfold sync.validate in H. destruct (sync.validateBody m) as [m' f].
  cbn [fst] in F. injection H as <- _. exists m'. split; [reflexivity|exact F].
Qed.

End ValidationFrame.

Section BeforeValidation.
Context {ext : sync.Collaborators}.

Lemma fold_left_panic {A B : Type} (f : result A -> B -> result A) (why : string) :
  (forall b, f (Panic why) b = Panic why) ->
  forall xs, fold_left f xs (Panic why) = Panic why.
Proof.
  intros Hf. induction xs as [|x xs IH]; cbn [fold_left]; [reflexivity|].
  now rewrite Hf.
Qed.

(** X12: the filtering and rewriting of a mapping in regex form need the
    pattern [validate] compiles: with a regex [from] and no compiled
    pattern, [filterRepos] panics on every non-empty list (and returns the
    empty list for the empty one); with a regex [to] and no compiled
    pattern, [mapPath] panics on every path. *)
Theorem regex_rule_needs_validate (m : sync.Mapping) :
  (sync.isRegexpFrom m = true -> sync.fromFilter m = None ->
   sync.filterRepos m [] = Ok [] /\
   forall (r : string) (repos : list string),
     exists why, sync.filterRepos m (r :: repos) = Panic why) /\
  (sync.isRegexpTo m = true -> sync.toFilter m = None ->
   forall p : string, exists why, sync.mapPath m p = Panic why).
Proof.
  split.
  - intros R F. unfold sync.filterRepos. rewrite R, F. split; [reflexivity|].
    intros r repos. eexists. cbn [fold_left sync.deref rbind].
    apply fold_left_panic. reflexivity.
  - intros R F p. unfold sync.mapPath. rewrite R, F. eexists. reflexivity.
Qed.

End BeforeValidation.

(** ** Further facts: filtering and rewriting *)
Section FilterAndMapMore.
Context {ext : sync.Collaborators}.

(** [filterRepos] on a compiled mapping, in closed form. *)
Lemma filterRepos_compiled (m : sync.Mapping) :
  verdict m = None ->
  exists keep : string -> bool,
    forall repos : list string,
      sync.filterRepos (compiled m) repos
      = Ok (if sync.isRegexp (sync.From m)
            then map sync.normalizePath (filter keep repos)
            else repos).
Proof.
  intros V. destruct (verdict_rules m V) as [_ [R2 _]].
  unfold sync.filterRepos. rewrite compiled_isRegexpFrom.
  destruct (sync.isRegexp (sync.From m)) eqn:R.
  - unfold ruleFromCompiles in R2. rewrite R in R2.
    destruct (sync.CompileRegex (regexPart (sync.From m)) true) as [re|err] eqn:C;
      [|discriminate].
    assert (Hf : sync.fromFilter (compiled m) = Some re).
    { unfold compiled. cbn [sync.fromFilter]. now rewrite R, C. }
    exists (sync.MatchString re). intros repos.
    now rewrite (filter_loop (compiled m) re Hf repos []).
  - exists (fun _ => true). reflexivity.
Qed.

(** X13: on a validated mapping [filterRepos] works name by name: the
    result for a list put together from two is the two results put
    together, so a listing may be filtered in batches; and the result is
    never longer than the input. *)
Theorem filterRepos_batches (m m' : sync.Mapping) (xs ys : list string) :
  sync.validate (Some m) = (Some m', sync.Returned None) ->
  exists outx outy : list string,
    sync.filterRepos m' xs = Ok outx /\
    sync.filterRepos m' ys = Ok outy /\
    sync.filterRepos m' (xs ++ ys) = Ok (outx ++ outy) /\
    (List.length outx <= List.length xs)%nat.
Proof.
  intros H. apply validate_inv in H. destruct H as [V H]. injection H as ->.
  destruct (filterRepos_compiled m V) as [keep F].
  rewrite !F. destruct (sync.isRegexp (sync.From m)).
  - exists (map sync.normalizePath (filter keep xs)),
           (map sync.normalizePath (filter keep ys)).
    repeat split.
    + now rewrite filter_app, map_app.
    + rewrite length_map. apply filter_length_le.
  - exists xs, ys. repeat split. lia.
Qed.

(** X14: under a regex [from], every name a validated mapping's
    [filterRepos] returns begins with a slash and is an input name, as it
    is or with one slash in front; under a literal [from] the input comes
    back as it is, names without a leading slash included. *)
Theorem filterRepos_results (m m' : sync.Mapping) (repos out : list string) :
  sync.validate (Some m) = (Some m', sync.Returned None) ->
  sync.filterRepos m' repos = Ok out ->
  (sync.isRegexpFrom m' = true ->
   Forall (fun r => absolute r = true /\
                    exists r0, In r0 repos /\ (r = r0 \/ r = String "/" r0)) out) /\
  (sync.isRegexpFrom m' = false -> out = repos).
Proof.
  intros H Hout. apply validate_inv in H. destruct H as [V H]. injection H as ->.
  destruct (filterRepos_compiled m V) as [keep F].
  rewrite F in Hout. injection Hout as <-. rewrite compiled_isRegexpFrom.
  destruct (sync.isRegexp (sync.From m)); split; try discriminate; intros _;
    [|reflexivity].
  apply Forall_forall. intros r Hr. apply in_map_iff in Hr.
  destruct Hr as [r0 [<- Hin]]. apply filter_In in Hin. destruct Hin as [Hin _].
  split; [apply normalizePath_absolute|]. exists r0. split; [exact Hin|].
  destruct (normalizePath_spec r0) as [[_ E]|[_ E]]; [now left|now right].
Qed.

Lemma absolute_app (a b : string) : absolute a = true -> absolute (a ++ b) = true.
Proof.
  unfold absolute, strings.HasPrefix. destruct a as [|c a]; [discriminate|].
  cbn [String.prefix String.append].
  destruct (Ascii.ascii_dec "/" c); [|discriminate]. intros _.
  destruct (a ++ b)%string; reflexivity.
Qed.

(** X15: filtering and rewriting fit together: for a validated mapping with
    a regex [from] and a [to] that is not in regex form, every name that
    [filterRepos] returns is rewritten by [mapPath] without panic to a
    destination that begins with a slash: the name itself under an empty
    [to], the normalized [to] followed by the name otherwise. *)
Theorem filtered_names_map_to_absolute (m m' : sync.Mapping)
    (repos out : list string) :
  sync.validate (Some m) = (Some m', sync.Returned None) ->
  sync.isRegexpFrom m' = true ->
  sync.isRegexpTo m' = false ->
  sync.filterRepos m' repos = Ok out ->
  Forall (fun r =>
            exists dest : string,
              sync.mapPath m' r = Ok dest /\
              absolute dest = true /\
              dest = (if (sync.To m =? EmptyString)%string then r
                      else sync.normalizePath (sync.To m) ++ r)%string) out.
Proof.
  intros H RF RT Hout.
  pose proof H as H0. apply validate_inv in H0. destruct H0 as [V H0].
  injection H0 as ->.
  destruct (filterRepos_compiled m V) as [keep F].
  rewrite F in Hout. injection Hout as <-.
  rewrite compiled_isRegexpFrom in RF. rewrite compiled_isRegexpTo in RT.
  rewrite RF. apply Forall_forall. intros r Hr. apply in_map_iff in Hr.
  destruct Hr as [r0 [<- _]].
  unfold sync.mapPath. rewrite compiled_isRegexpTo, compiled_isRegexpFrom, RT, RF.
  unfold compiled. cbn [sync.To]. rewrite RT.
  destruct (sync.To m =? EmptyString)%string eqn:E.
  - rewrite E. cbn [negb]. eexists. split; [reflexivity|].
    split; [apply normalizePath_absolute|reflexivity].
  - rewrite normalizePath_not_empty. cbn [negb]. eexists. split; [reflexivity|].
    split; [|reflexivity]. apply absolute_app. apply normalizePath_absolute.
Qed.

(** X16: [normalizePath] always yields a path that begins with a slash and
    ends in its argument, and normalizing twice is normalizing once. *)
Theorem normalizePath_idempotent (p : string) :
  absolute (sync.normalizePath p) = true /\
  sync.normalizePath (sync.normalizePath p) = sync.normalizePath p /\
  (sync.normalizePath p = p \/ sync.normalizePath p = String "/" p) /\
  (absolute p = true -> sync.normalizePath p = p).
Proof.
  split; [apply normalizePath_absolute|]. split; [apply normalizePath_idem|].
  split.
  - destruct (normalizePath_spec p) as [[_ E]|[_ E]]; [now left|now right].
  - unfold absolute, sync.normalizePath. now intros ->.
Qed.

Lemma isRegexp_split (s : string) :
  sync.isRegexp s = true -> s = (sync.RegexpPrefix ++ regexPart s)%string.
Proof.
  intros H. destruct (sliceFrom_prefix sync.RegexpPrefix s H) as [rest [E ->]].
  reflexivity.
Qed.

(** X17: a validated [to] in regex form reads back from what [validate]
    stored: it is the prefix, a pattern without a comma, a comma and the
    stored template, which may itself hold commas; the compiled pattern is
    that of the text before the first comma, so no pattern with a comma in
    it can be given. *)
Theorem regex_to_reads_back (m m' : sync.Mapping) :
  sync.validate (Some m) = (Some m', sync.Returned None) ->
  sync.isRegexp (sync.To m) = true ->
  exists (pattern : string) (re : sync.Regexp),
    sync.To m = (sync.RegexpPrefix ++ pattern ++ "," ++ sync.toReplace m')%string /\
    occurs "," pattern = false /\
    sync.CompileRegex pattern false = inl re /\
    sync.toFilter m' = Some re /\
    sync.To m' = sync.To m.
Proof.
  intros H R. apply validate_inv in H. destruct H as [V H]. injection H as ->.
  destruct (verdict_rules m V) as [_ [_ [R4 _]]].
  unfold ruleToCompiles in R4. rewrite R in R4.
  unfold compiled. cbn [sync.toReplace sync.toFilter sync.To]. rewrite R.
  destruct (toParts (sync.To m)) as [[pattern template]|] eqn:P; [|discriminate].
  destruct (sync.CompileRegex pattern false) as [re|err] eqn:C; [|discriminate].
  exists pattern, re. unfold toParts in P. apply cut_Some in P.
  destruct P as [P Hclean]. split.
  - rewrite (isRegexp_split _ R) at 1. now rewrite P.
  - repeat split; assumption.
Qed.

End FilterAndMapMore.

(** ** The further facts at work on the doubles *)

Lemma renameRule_validates :
  sync.validate (Some doubles.renameRule)
  = (Some (compiled doubles.renameRule), sync.Returned None).
Proof. vm_compute. reflexivity. Qed.

Lemma prefixRule_validates :
  sync.validate (Some doubles.prefixRule)
  = (Some (compiled doubles.prefixRule), sync.Returned None).
Proof. vm_compute. reflexivity. Qed.

Lemma validate_idempotent_witness :
  sync.validate (Some (compiled doubles.renameRule))
  = (Some (compiled doubles.renameRule), sync.Returned None).
Proof.
  exact (validate_idempotent doubles.renameRule (compiled doubles.renameRule)
           renameRule_validates).
Defined.

Lemma validated_wellformed_witness :
  (sync.isRegexpFrom (compiled doubles.prefixRule) = true \/
   absolute (sync.From (compiled doubles.prefixRule)) = true) /\
  (sync.To (compiled doubles.prefixRule) = EmptyString \/
   sync.isRegexpTo (compiled doubles.prefixRule) = true \/
   absolute (sync.To (compiled doubles.prefixRule)) = true) /\
  sync.tagSet (compiled doubles.prefixRule) <> None.
Proof.
  destruct (validated_wellformed doubles.prefixRule (compiled doubles.prefixRule)
              prefixRule_validates) as [H1 [H2 [_ [_ [H5 _]]]]].
  split; [exact H1|]. split; [exact H2|exact H5].
Defined.

Lemma onlyActive_spellings_witness :
  sync.onlyActive
    (compiled (doubles.rawMapping "myimage" EmptyString "TRUE" EmptyString)) = true
  <-> In "TRUE" trueSpellings.
Proof.
  apply (onlyActive_spellings
           (doubles.rawMapping "myimage" EmptyString "TRUE" EmptyString)).
  vm_compute. reflexivity.
Defined.

Lemma validate_frame_witness :
  exists m' : sync.Mapping,
    fst (sync.validate (Some doubles.noCommaRule)) = Some m' /\
    snd (sync.validate (Some doubles.noCommaRule))
    = sync.Returned (Some "replacement expression missing in 'to'") /\
    sync.From m' = sync.From (compiled doubles.noCommaRule).
Proof.
  destruct (validate_frame doubles.noCommaRule _ _
              (surjective_pairing (sync.validate (Some doubles.noCommaRule))))
    as [m' [Hr [_ [_ [_ [_ [_ [_ Hfrom]]]]]]]].
  exists m'. split; [exact Hr|]. split; [vm_compute; reflexivity|].
  apply Hfrom; vm_compute; reflexivity.
Defined.

Lemma filterRepos_batches_witness :
  exists outx outy : list string,
    sync.filterRepos (compiled doubles.renameRule) ["foo/a"] = Ok outx /\
    sync.filterRepos (compiled doubles.renameRule) ["bar/b"; "foo/a"] = Ok outy /\
    sync.filterRepos (compiled doubles.renameRule) (["foo/a"] ++ ["bar/b"; "foo/a"])
    = Ok (outx ++ outy) /\
    (List.length outx <= List.length ["foo/a"])%nat.
Proof.
  exact (filterRepos_batches doubles.renameRule (compiled doubles.renameRule)
           ["foo/a"] ["bar/b"; "foo/a"] renameRule_validates).
Defined.

Lemma filterRepos_results_witness :
  (sync.isRegexpFrom (compiled doubles.renameRule) = true ->
   Forall (fun r => absolute r = true /\
                    exists r0, In r0 ["foo/a"; "bar/b"] /\
                               (r = r0 \/ r = String "/" r0)) ["/foo/a"]) /\
  (sync.isRegexpFrom (compiled doubles.renameRule) = false ->
   ["/foo/a"] = ["foo/a"; "bar/b"]).
Proof.
  apply (filterRepos_results doubles.renameRule (compiled doubles.renameRule)
           ["foo/a"; "bar/b"] ["/foo/a"] renameRule_validates).
  vm_compute. reflexivity.
Defined.

Lemma filtered_names_map_to_absolute_witness :
  Forall (fun r =>
            exists dest : string,
              sync.mapPath (compiled doubles.prefixRule) r = Ok dest /\
              absolute dest = true /\
              dest = (if (sync.To doubles.prefixRule =? EmptyString)%string then r
                      else sync.normalizePath (sync.To doubles.prefixRule) ++ r)%string)
         ["/foo/a"].
Proof.
  apply (filtered_names_map_to_absolute doubles.prefixRule
           (compiled doubles.prefixRule) ["foo/a"; "bar/b"] ["/foo/a"]
           prefixRule_validates); vm_compute; reflexivity.
Defined.

Lemma regex_to_reads_back_witness :
  exists (pattern : string) (re : sync.Regexp (Collaborators := doubles.literalEngine)),
    sync.To doubles.renameRule
    = (sync.RegexpPrefix ++ pattern ++ ","
       ++ sync.toReplace (compiled doubles.renameRule))%string /\
    occurs "," pattern = false /\
    sync.CompileRegex pattern false = inl re /\
    sync.toFilter (compiled doubles.renameRule) = Some re /\
    sync.To (compiled doubles.renameRule) = sync.To doubles.renameRule.
Proof.
  apply (regex_to_reads_back doubles.renameRule (compiled doubles.renameRule)
           renameRule_validates).
  vm_compute. reflexivity.
Defined.

Example prefix_rule_destination :
  sync.filterRepos (compiled doubles.prefixRule) ["foo/a"; "bar/b"] = Ok ["/foo/a"] /\
  sync.mapPath (compiled doubles.prefixRule) "/foo/a" = Ok "/prefix/foo/a".
Proof. vm_compute. split; reflexivity. Qed.

Example comma_in_pattern_is_cut :
  toParts "regex:a{1,2},x" = Some ("a{1", "2},x").
Proof. vm_compute. reflexivity. Qed.

Example literal_rule_keeps_relative_names :
  sync.filterRepos (compiled doubles.plainRule) ["myimage"] = Ok ["myimage"] /\
  sync.mapPath (compiled doubles.plainRule) "myimage" = Ok "myimage".
Proof. vm_compute. split; reflexivity. Qed.

Example IsECR_empty_account_and_region :
  registry.IsECR ".dkr.ecr..amazonaws.com" = Ok (true, EmptyString, EmptyString).
Proof. vm_compute. reflexivity. Qed.
